(** * ChatContext: code-paired chat sessions over an in-process room registry

    A shallow embedding of [src/context/ChatContext.tsx].  The module-level
    [rooms] map and the state of every mounted [ChatProvider] are gathered in
    one [World]; each operation of the context ([generateCode], [joinChat],
    [sendMessage], [leaveChat]) is a function on worlds.

    Conventions of the embedding.
    - The outcome of each call into the crypto provider ([generateKeyPair],
      [generatePairingCode]) is an input of the operation that awaits it.
    - [uuidv4()] draws from a supply of fresh identifiers; object identities
      (closures, promises) draw from a second supply.
    - The state updates an operation queues are applied together at the
      re-render that follows it; that re-render then runs the cleanup of the
      effect declared at lines 43-55 when one of its dependencies changed.
    - A React state setter that receives a function treats it as an updater:
      the new state is the result of calling that function on the previous
      state ([basicStateReducer]). *)

From stdpp Require Import gmap strings list fin_maps.
From Stdlib Require Import ZArith.

Set Default Proof Using "Type".

(** ** Data model *)

Definition uuid := nat.

Inductive MessageType := text | image | audio.
Inductive Sender := self | peer.

#[global] Instance MessageType_eq_dec : EqDecision MessageType.
Proof. solve_decision. Defined.
#[global] Instance Sender_eq_dec : EqDecision Sender.
Proof. solve_decision. Defined.

(** [Message] of [../types]; a property read off a value that lacks it is
    [undefined], written [None]. *)
Module Message.
Record t := mk {
  id : uuid;
  content : option string;
  type : option MessageType;
  timestamp : Z;
  sender : Sender;
  encrypted : bool
}.
End Message.

#[global] Instance Message_eq_dec : EqDecision Message.t.
Proof. solve_decision. Defined.

(** The closure built at lines 94-109: its identity and the provider
    instance whose [setMessages] it captured. *)
Record Callback := mkCallback { cb_ref : nat; cb_owner : nat }.

#[global] Instance Callback_eq_dec : EqDecision Callback.
Proof. solve_decision. Defined.

(** Values the [messageCallback] state cell can hold at run time. *)
Inductive Value :=
| VNull
| VFun (f : Callback)
| VPromise (p : nat).

#[global] Instance Value_eq_dec : EqDecision Value.
Proof. solve_decision. Defined.

(** What a callback can be applied to: [null], or an object of which only
    the [content] and [type] properties are read. *)
Inductive Arg :=
| ANull
| AObject (content : option string) (type : option MessageType).

Inductive Exn :=
| Error (message : string)
| CryptoError (detail : string).

Inductive Outcome (A : Type) :=
| Returns (a : A)
| Throws (e : Exn).
Arguments Returns {A} a.
Arguments Throws {A} e.

Definition NotPairedError : Exn := Error "Not connected or paired".

(** Entry of the [rooms] map (lines 7-10); [listeners] is a JS [Set], kept
    in insertion order and without duplicates. *)
Record Room := mkRoom { creator : uuid; listeners : list Callback }.

(** The [useState] cells of one [ChatProvider] (lines 34-39). *)
Record Session := mkSession {
  messages : list Message.t;
  isConnected : bool;
  isPaired : bool;
  pairingCode : option string;
  messageCallback : Value;
  userId : uuid
}.

Record World := mkWorld {
  rooms : gmap string Room;
  sessions : gmap nat Session;
  uuids : nat;
  objects : nat;
  clock : Z
}.

(** ** Primitive steps *)

Definition uuidv4 (w : World) : uuid * World :=
  (uuids w, mkWorld (rooms w) (sessions w) (S (uuids w)) (objects w) (clock w)).

(** [Date.now()]; the clock moves between operations only. *)
Definition Date_now (w : World) : Z := clock w.

Definition elapse (dt : Z) (w : World) : World :=
  mkWorld (rooms w) (sessions w) (uuids w) (objects w) (clock w + dt).

Definition new_object (w : World) : nat * World :=
  (objects w, mkWorld (rooms w) (sessions w) (uuids w) (S (objects w)) (clock w)).

Definition with_rooms (f : gmap string Room → gmap string Room) (w : World) : World :=
  mkWorld (f (rooms w)) (sessions w) (uuids w) (objects w) (clock w).

(** A state setter of provider [sid]; it does nothing once the provider is
    gone. *)
Definition setState (sid : nat) (f : Session → Session) (w : World) : World :=
  mkWorld (rooms w) (alter f sid (sessions w)) (uuids w) (objects w) (clock w).

Definition setMessages (sid : nat) (f : list Message.t → list Message.t) : World → World :=
  setState sid (λ s, mkSession (f (messages s)) (isConnected s) (isPaired s)
                               (pairingCode s) (messageCallback s) (userId s)).

Definition setIsPaired (sid : nat) (b : bool) : World → World :=
  setState sid (λ s, mkSession (messages s) (isConnected s) b
                               (pairingCode s) (messageCallback s) (userId s)).

Definition setPairingCode (sid : nat) (c : option string) : World → World :=
  setState sid (λ s, mkSession (messages s) (isConnected s) (isPaired s)
                               c (messageCallback s) (userId s)).

Definition storeMessageCallback (sid : nat) (v : Value) : World → World :=
  setState sid (λ s, mkSession (messages s) (isConnected s) (isPaired s)
                               (pairingCode s) v (userId s)).

(** JS truthiness of the two cells tested at lines 45, 122 and 154. *)
Definition truthy_code (c : option string) : bool :=
  match c with
  | Some s => negb (String.eqb s "")
  | None => false
  end.

Definition truthy (v : Value) : bool :=
  match v with
  | VNull => false
  | _ => true
  end.

(** [Set.prototype.add] and [Set.prototype.delete] on the listener set. *)
Definition Set_add (c : Callback) (l : list Callback) : list Callback :=
  if decide (c ∈ l) then l else l ++ [c].

Definition Set_delete (v : Value) (l : list Callback) : list Callback :=
  filter (λ c, VFun c ≠ v) l.

(** ** The delivery callback (lines 94-109)

    An async function: it always returns a fresh promise.  [uuidv4()] is
    evaluated first; reading [message.content] of [null] throws a
    [TypeError], which the [catch] at line 106 swallows. *)
Definition callback (c : Callback) (message : Arg) (w : World) : Value * World :=
  let '(i, w) := uuidv4 w in
  let w :=
    match message with
    | ANull => w
    | AObject ct ty =>
        setMessages (cb_owner c)
          (λ prev, prev ++ [Message.mk i ct ty (Date_now w) peer true]) w
    end in
  let '(p, w) := new_object w in
  (VPromise p, w).

(** A state value handed to a callback as its [message]: neither a function
    nor a promise has a [content] or a [type] property. *)
Definition as_message (v : Value) : Arg :=
  match v with
  | VNull => ANull
  | _ => AObject None None
  end.

(** [setMessageCallback(action)].  React's [basicStateReducer] computes the
    next state as [typeof action === 'function' ? action(prev) : action]: a
    function handed to the setter is called as an updater on the previous
    state, and what it returns is stored.  Line 111 hands it the async
    closure of lines 94-109, so the closure runs once with the previous
    cell value as its [message] and the cell ends up holding the promise
    that call returns, not the closure. *)
Definition setMessageCallback (sid : nat) (action : Value) (w : World) : World :=
  match action with
  | VFun f =>
      match sessions w !! sid with
      | Some s =>
          let '(r, w) := callback f (as_message (messageCallback s)) w in
          storeMessageCallback sid r w
      | None => w
      end
  | v => storeMessageCallback sid v w
  end.

(** ** Subscription cleanup (lines 45-53, repeated at 154-162) *)
Definition unsubscribe (code : option string) (cb : Value) (w : World) : World :=
  if truthy_code code && truthy cb then
    match code with
    | Some c =>
        match rooms w !! c with
        | Some room =>
            let ls := Set_delete cb (listeners room) in
            if decide (length ls = 0) then with_rooms (delete c) w
            else with_rooms (<[c := mkRoom (creator room) ls]>) w
        | None => w
        end
    | None => w
    end
  else w.

(** The re-render after an operation of provider [sid]: [prev] is the state
    the previous render (and so the pending effect cleanup) captured. *)
Definition rerender (sid : nat) (prev : Session) (w : World) : World :=
  match sessions w !! sid with
  | Some s =>
      if decide (pairingCode s = pairingCode prev ∧
                 messageCallback s = messageCallback prev)
      then w
      else unsubscribe (pairingCode prev) (messageCallback prev) w
  | None => w
  end.

(** ** Operations of the context *)

(** Mounting a [ChatProvider] as instance [sid] (lines 34-39). *)
Definition ChatProvider (sid : nat) (w : World) : World :=
  let '(u, w) := uuidv4 w in
  mkWorld (rooms w) (<[sid := mkSession [] true false None VNull u]> (sessions w))
          (uuids w) (objects w) (clock w).

(** Lines 57-75.  [kp] and [pc] are the outcomes of [generateKeyPair] and
    [generatePairingCode]. *)
Definition generateCode (sid : nat) (kp : Outcome ()) (pc : Outcome string)
    (w : World) : option (Outcome string * World) :=
  s ← sessions w !! sid;
  Some match kp with
       | Throws e => (Throws e, w)
       | Returns _ =>
           match pc with
           | Throws e => (Throws e, w)
           | Returns code =>
               let w := with_rooms (<[code := mkRoom (userId s) []]>) w in
               let w := setPairingCode sid (Some code) w in
               let w := setIsPaired sid true w in
               (Returns code, rerender sid s w)
           end
       end.

(** Lines 77-119.  [kp] is the outcome of [generateKeyPair]. *)
Definition joinChat (sid : nat) (code : string) (kp : Outcome ())
    (w : World) : option (Outcome bool * World) :=
  s ← sessions w !! sid;
  Some match rooms w !! code with
       | None => (Returns false, w)
       | Some room =>
           if decide (creator room = userId s) then (Returns false, w)
           else
             match kp with
             | Throws _ => (Returns false, w)
             | Returns _ =>
                 let w := setPairingCode sid (Some code) w in
                 let '(r, w) := new_object w in
                 let cb := mkCallback r sid in
                 let w := setMessageCallback sid (VFun cb) w in
                 let w := with_rooms
                            (<[code := mkRoom (creator room)
                                              (Set_add cb (listeners room))]>) w in
                 let w := setIsPaired sid true w in
                 (Returns true, rerender sid s w)
             end
       end.

(** Lines 121-151. *)
Definition broadcast (own : Value) (m : Arg) (ls : list Callback)
    (w : World) : World :=
  foldl (λ w listener,
           if decide (VFun listener ≠ own) then (callback listener m w).2
           else w) w ls.

Definition sendMessage (sid : nat) (content : string) (type : MessageType)
    (w : World) : option (Outcome () * World) :=
  s ← sessions w !! sid;
  Some (if negb (isPaired s) || negb (truthy_code (pairingCode s))
        then (Throws NotPairedError, w)
        else
          let '(i, w) := uuidv4 w in
          let w := setMessages sid
                     (λ prev, prev ++ [Message.mk i (Some content) (Some type)
                                                   (Date_now w) self true]) w in
          let w :=
            match pairingCode s ≫= (rooms w !!.) with
            | Some room =>
                broadcast (messageCallback s)
                          (AObject (Some content) (Some type)) (listeners room) w
            | None => w
            end in
          (Returns (), w)).

(** Lines 153-168; [crypto.reset()] has no effect on the world. *)
Definition leaveChat (sid : nat) (w : World) : option (Outcome () * World) :=
  s ← sessions w !! sid;
  let w := unsubscribe (pairingCode s) (messageCallback s) w in
  let w := setMessages sid (λ _, []) w in
  let w := setIsPaired sid false w in
  let w := setPairingCode sid None w in
  let w := setMessageCallback sid VNull w in
  Some (Returns (), rerender sid s w).

(** ** Derived notions used in the statements *)

(** Whether a cell value is a function, that is, whether it can be an
    element of a listener set. *)
Definition is_function (v : Value) : bool :=
  match v with
  | VFun _ => true
  | _ => false
  end.

(** The message the updater call at line 111 appends to the joiner's own
    log: none when the cell held [null], one without content or type when it
    held a stale value. *)
Definition updater_message (prev : Value) (w : World) : list Message.t :=
  match as_message prev with
  | ANull => []
  | AObject ct ty => [Message.mk (uuids w) ct ty (Date_now w) peer true]
  end.

(** A session with [rest] appended to its log. *)
Definition append_log (rest : list Message.t) (s : Session) : Session :=
  mkSession (messages s ++ rest) (isConnected s) (isPaired s)
            (pairingCode s) (messageCallback s) (userId s).

(** The listeners of a fan-out that write to the log of provider [j]:
    those not identical to the sender's [messageCallback] (line 142) whose
    closure captured [j]'s [setMessages]. *)
Definition reaching (own : Value) (j : nat) (ls : list Callback) : list Callback :=
  filter (λ c, VFun c ≠ own ∧ cb_owner c = j) ls.

(** An entry written by the delivery callback for a message with the given
    content and type. *)
Definition is_delivery (ct : option string) (ty : option MessageType)
    (x : Message.t) : Prop :=
  Message.sender x = peer ∧ Message.content x = ct ∧
  Message.type x = ty ∧ Message.encrypted x = true.

(** No provider holds a function in its [messageCallback] cell. *)
Definition no_function_cell (w : World) : Prop :=
  ∀ sid s, sessions w !! sid = Some s → is_function (messageCallback s) = false.

(** ** Executions *)

(** The world before anything is mounted. *)
Definition initial : World := mkWorld ∅ ∅ 0 0 0.

(** One step of the system: a provider mounts, time passes, or a mounted
    provider runs one of its four operations to completion. *)
Inductive step : World → World → Prop :=
| step_mount sid w :
    sessions w !! sid = None → step w (ChatProvider sid w)
| step_elapse dt w :
    (0 ≤ dt)%Z → step w (elapse dt w)
| step_generateCode sid kp pc w r w' :
    generateCode sid kp pc w = Some (r, w') → step w w'
| step_joinChat sid code kp w r w' :
    joinChat sid code kp w = Some (r, w') → step w w'
| step_sendMessage sid content type w r w' :
    sendMessage sid content type w = Some (r, w') → step w w'
| step_leaveChat sid w r w' :
    leaveChat sid w = Some (r, w') → step w w'.

Definition reachable (w : World) : Prop := rtc step initial w.

(** ** A session of three providers

    Provider 0 hosts, provider 1 joins, provider 2 is a bystander. *)

(** The world after [op]; a provider that is not mounted changes nothing. *)
Definition after {A : Type} (op : World → option (Outcome A * World))
    (w : World) : World :=
  match op w with
  | Some (_, w') => w'
  | None => w
  end.

Definition the_code : string := "482913".

Definition ex_mounted : World :=
  elapse 1000 (ChatProvider 2 (ChatProvider 1 (ChatProvider 0 initial))).

Definition ex_hosted : World :=
  after (generateCode 0 (Returns ()) (Returns the_code)) ex_mounted.

Definition ex_joined : World :=
  after (joinChat 1 the_code (Returns ())) ex_hosted.

Definition ex_left : World := after (leaveChat 1) ex_joined.

Definition idle (u : uuid) : Session := mkSession [] true false None VNull u.

Definition ex_host : Session := mkSession [] true true (Some the_code) VNull 0.

Definition ex_host_sent : World := after (sendMessage 0 "hello" text) ex_joined.

Definition ex_joiner_sent : World := after (sendMessage 1 "hi" text) ex_joined.

Definition ex_third_joined : World :=
  after (joinChat 2 the_code (Returns ())) ex_joined.

(** ** Teardown and state invariants *)

(** Unmounting provider [sid]: React runs the pending effect cleanup (lines
    44-54) with the values the last render captured, and the provider's
    state cells are gone. *)
Definition unmount (sid : nat) (w : World) : option World :=
  s ← sessions w !! sid;
  let w := unsubscribe (pairingCode s) (messageCallback s) w in
  Some (mkWorld (rooms w) (delete sid (sessions w)) (uuids w) (objects w) (clock w)).

(** [isPaired] and [pairingCode] are set and cleared together. *)
Definition paired_coherent (w : World) : Prop :=
  ∀ sid s, sessions w !! sid = Some s →
           (isPaired s = true ↔ is_Some (pairingCode s)).

(** Every entry of every log carries an identifier already drawn from the
    supply, and no log holds the same identifier twice. *)
Definition ids_fresh (w : World) : Prop :=
  ∀ sid s, sessions w !! sid = Some s →
           NoDup (Message.id <$> messages s) ∧
           Forall (λ m, Message.id m < uuids w) (messages s).

(** No mounted provider listens in a room created under its own
    identity. *)
Definition no_self_pairing (w : World) : Prop :=
  ∀ code room c s,
    rooms w !! code = Some room → c ∈ listeners room →
    sessions w !! cb_owner c = Some s → userId s ≠ creator room.

(** The providers of [w'] are providers of [w] with the same identity. *)
Definition same_identities (w w' : World) : Prop :=
  ∀ j s', sessions w' !! j = Some s' →
          ∃ s, sessions w !! j = Some s ∧ userId s = userId s'.

(** No closure of provider instance [sid] is subscribed anywhere. *)
Definition owns_no_listener (sid : nat) (w : World) : Prop :=
  ∀ code room c, rooms w !! code = Some room → c ∈ listeners room →
                 cb_owner c ≠ sid.

(** Every room of [w'] is a room of [w] under the same code, with the same
    creator and no listener that [w] did not have. *)
Definition rooms_shrink (w w' : World) : Prop :=
  ∀ k r', rooms w' !! k = Some r' →
          ∃ r, rooms w !! k = Some r ∧ creator r' = creator r ∧
               ∀ c, c ∈ listeners r' → c ∈ listeners r.

(** One step of the system when providers also go away: as [step], with
    unmounting; an instance handle is not given to a new provider while a
    closure of its previous holder is still subscribed. *)
Inductive lifecycle : World → World → Prop :=
| lc_mount sid w :
    sessions w !! sid = None → owns_no_listener sid w →
    lifecycle w (ChatProvider sid w)
| lc_unmount sid w w' :
    unmount sid w = Some w' → lifecycle w w'
| lc_elapse dt w :
    (0 ≤ dt)%Z → lifecycle w (elapse dt w)
| lc_generateCode sid kp pc w r w' :
    generateCode sid kp pc w = Some (r, w') → lifecycle w w'
| lc_joinChat sid code kp w r w' :
    joinChat sid code kp w = Some (r, w') → lifecycle w w'
| lc_sendMessage sid content type w r w' :
    sendMessage sid content type w = Some (r, w') → lifecycle w w'
| lc_leaveChat sid w r w' :
    leaveChat sid w = Some (r, w') → lifecycle w w'.

Definition reachable_with_unmount (w : World) : Prop := rtc lifecycle initial w.

(** The joiner, still joined, generates a code of its own, then leaves. *)
Definition ex_rehosted : World :=
  after (generateCode 1 (Returns ()) (Returns "111111")) ex_joined.

Definition ex_rehosted_left : World := after (leaveChat 1) ex_rehosted.

(** Providers 1 and 2 have joined the host's room; provider 1 unmounts. *)
Definition ex_unmounted : World :=
  default ex_third_joined (unmount 1 ex_third_joined).

(** The joiner's cells once it has joined. *)
Definition ex_joiner : Session :=
  mkSession [] true true (Some the_code) (VPromise 1) 1.

(** The host sends after the joiner has left. *)
Definition ex_stale : World := after (sendMessage 0 "hello" text) ex_left.

(** ** Frame lemmas for the primitive steps *)

Lemma lookup_setState sid f w j :
  sessions (setState sid f w) !! j =
  if decide (sid = j) then f <$> sessions w !! j else sessions w !! j.
Proof.
  unfold setState; simpl. case_decide as E.
  - subst j. apply lookup_alter_eq.
  - by apply lookup_alter_ne.
Qed.

Lemma rooms_setState sid f w : rooms (setState sid f w) = rooms w.
Proof. reflexivity. Qed.

Lemma sessions_with_rooms f w : sessions (with_rooms f w) = sessions w.
Proof. reflexivity. Qed.

Arguments setState : simpl never.

Ltac unfold_setters :=
  unfold setMessages, setIsPaired, setPairingCode, storeMessageCallback in *.

Ltac lookup_session :=
  unfold_setters; rewrite ?lookup_setState; simpl;
  rewrite ?decide_True by done; simpl.

Lemma setState_id sid f w :
  (∀ s, sessions w !! sid = Some s → f s = s) → setState sid f w = w.
Proof.
  intros Hf. destruct w as [r ss u o c]. unfold setState; simpl in *.
  f_equal. apply map_eq. intros j. destruct (decide (sid = j)) as [<-|Hne].
  - rewrite lookup_alter_eq. destruct (ss !! sid) as [s|] eqn:E; simpl; [|done].
    by rewrite Hf.
  - by rewrite lookup_alter_ne.
Qed.

Lemma unsubscribe_sessions code cb w :
  sessions (unsubscribe code cb w) = sessions w.
Proof. unfold unsubscribe. repeat case_match; reflexivity. Qed.

Lemma unsubscribe_falsy code cb w :
  truthy_code code && truthy cb = false → unsubscribe code cb w = w.
Proof. unfold unsubscribe. by intros ->. Qed.

Lemma unsubscribe_rooms_ne code cb w c :
  code ≠ Some c → rooms (unsubscribe code cb w) !! c = rooms w !! c.
Proof.
  intros Hne. unfold unsubscribe. repeat case_match; try reflexivity; simpl.
  - apply lookup_delete_ne. congruence.
  - apply lookup_insert_ne. congruence.
Qed.

Lemma rerender_sessions sid prev w :
  sessions (rerender sid prev w) = sessions w.
Proof.
  unfold rerender. repeat case_match; try reflexivity. apply unsubscribe_sessions.
Qed.

Lemma callback_rooms c m w : rooms (callback c m w).2 = rooms w.
Proof. unfold callback. destruct m; reflexivity. Qed.

Lemma broadcast_rooms own m ls w : rooms (broadcast own m ls w) = rooms w.
Proof.
  revert w. induction ls as [|l ls IH]; intros w; [reflexivity|].
  unfold broadcast in *; simpl. rewrite IH. case_decide; [|reflexivity].
  apply callback_rooms.
Qed.

(** ** Sending while unpaired *)

(** C5.  A session that is not paired ([isPaired] false, or no pairing
    code) gets [NotPairedError] from [sendMessage], and the world after the
    failed call is the world before it: no state is mutated, so the message
    log is unchanged. *)
Theorem sendMessage_unpaired_fails (w : World) (sid : nat) (s : Session)
    (content : string) (type : MessageType) :
  sessions w !! sid = Some s →
  isPaired s = false ∨ pairingCode s = None →
  sendMessage sid content type w = Some (Throws NotPairedError, w).
Proof.
  intros Hs Hun. unfold sendMessage. rewrite Hs; simpl.
  destruct Hun as [-> | ->]; simpl; [reflexivity|].
  by rewrite orb_true_r.
Qed.

(** ** The join path when key generation fails *)

(** C3, as the code has it.  When [generateKeyPair] fails during [joinChat]
    on an existing room created by another session, the [catch] at line 115
    turns the failure into the result [false]; nothing was changed before
    the failure, so the session is as unpaired as it was. *)
Theorem joinChat_keypair_failure (w : World) (sid : nat) (s : Session)
    (code : string) (room : Room) (e : Exn) :
  sessions w !! sid = Some s →
  rooms w !! code = Some room →
  creator room ≠ userId s →
  joinChat sid code (Throws e) w = Some (Returns false, w).
Proof.
  intros Hs Hr Hc. unfold joinChat. rewrite Hs; simpl. rewrite Hr.
  by rewrite decide_False.
Qed.

(** ** Self-pairing *)

Lemma generateCode_success sid kp pc w code w1 :
  generateCode sid kp pc w = Some (Returns code, w1) →
  ∃ s, sessions w !! sid = Some s ∧
       pc = Returns code ∧
       w1 = rerender sid s
              (setIsPaired sid true
                 (setPairingCode sid (Some code)
                    (with_rooms (<[code := mkRoom (userId s) []]>) w))).
Proof.
  unfold generateCode. destruct (sessions w !! sid) as [s|]; simpl; [|done].
  destruct kp; [|done]. destruct pc as [c|]; [|done].
  intros [= -> <-]. eauto.
Qed.

(** After a successful [generateCode] the registry maps the code to a room
    of the caller with no listener, and the caller's cells are as set at
    lines 68-69. *)
Lemma generateCode_post sid kp pc w code w1 :
  generateCode sid kp pc w = Some (Returns code, w1) →
  ∃ s, sessions w !! sid = Some s ∧
       rooms w1 !! code = Some (mkRoom (userId s) []) ∧
       sessions w1 !! sid =
         Some (mkSession (messages s) (isConnected s) true (Some code)
                         (messageCallback s) (userId s)).
Proof.
  intros (s & Hs & _ & ->)%generateCode_success. exists s.
  split; [done|]. rewrite rerender_sessions. split.
  - unfold rerender. lookup_session. rewrite Hs; simpl.
    case_decide as Hd; simpl.
    + apply lookup_insert_eq.
    + rewrite unsubscribe_rooms_ne; [apply lookup_insert_eq|].
      intros Heq. apply Hd. by rewrite Heq.
  - lookup_session. by rewrite Hs.
Qed.

Lemma generateCode_other sid kp pc w code w1 j :
  generateCode sid kp pc w = Some (Returns code, w1) →
  j ≠ sid →
  sessions w1 !! j = sessions w !! j.
Proof.
  intros (s & Hs & _ & ->)%generateCode_success Hj.
  rewrite rerender_sessions. unfold_setters.
  by rewrite !lookup_setState, !decide_False by congruence.
Qed.

(** C4.  After a successful [generateCode] returning [code], [joinChat code]
    by the same session returns [false], whatever the crypto provider would
    answer: the room's creator is the caller. *)
Theorem joinChat_own_code_rejected (w w1 : World) (sid : nat)
    (kp : Outcome ()) (pc : Outcome string) (code : string) (kp' : Outcome ()) :
  generateCode sid kp pc w = Some (Returns code, w1) →
  joinChat sid code kp' w1 = Some (Returns false, w1).
Proof.
  intros (s & Hs & Hr & Hs1)%generateCode_post.
  unfold joinChat. rewrite Hs1; simpl. rewrite Hr; simpl.
  by rewrite decide_True.
Qed.

(** ** What the state cell [messageCallback] holds *)

Lemma Set_delete_not_function v l : is_function v = false → Set_delete v l = l.
Proof.
  intros Hv. unfold Set_delete. induction l as [|c l IH]; [reflexivity|].
  rewrite filter_cons_True; [by rewrite IH|].
  intros <-. discriminate.
Qed.

Lemma Set_add_not_nil c l : Set_add c l ≠ [].
Proof.
  unfold Set_add. case_decide as Hin.
  - intros ->. by apply not_elem_of_nil in Hin.
  - by destruct l.
Qed.

Lemma Set_add_elem c l : c ∈ Set_add c l.
Proof. unfold Set_add. case_decide; [done|]. apply elem_of_app. right. by left. Qed.

Lemma Set_add_keeps c d l : d ∈ l → d ∈ Set_add c l.
Proof. unfold Set_add. case_decide; [done|]. intros ?. apply elem_of_app. by left. Qed.

(** Deleting something that is not a function from the listener set of a
    room removes no listener; the room itself goes only if it had none. *)
Lemma unsubscribe_not_function_rooms code cb w c room :
  is_function cb = false →
  rooms w !! c = Some room →
  listeners room ≠ [] →
  rooms (unsubscribe code cb w) !! c = Some room.
Proof.
  intros Hcb Hr Hne. unfold unsubscribe.
  destruct (truthy_code code && truthy cb); [|done].
  destruct code as [c'|]; [|done].
  destruct (decide (c' = c)) as [->|Hc].
  - rewrite Hr, Set_delete_not_function by done.
    rewrite decide_False by (by destruct (listeners room)).
    simpl. rewrite lookup_insert_eq. by destruct room.
  - repeat case_match; simpl; try done.
    + by rewrite lookup_delete_ne.
    + by rewrite lookup_insert_ne.
Qed.

(** ** Leaving *)

Lemma leaveChat_unfold sid w s :
  sessions w !! sid = Some s →
  leaveChat sid w =
    Some (Returns (),
          rerender sid s
            (storeMessageCallback sid VNull
               (setPairingCode sid None
                  (setIsPaired sid false
                     (setMessages sid (λ _, [])
                        (unsubscribe (pairingCode s) (messageCallback s) w)))))).
Proof. intros Hs. unfold leaveChat. by rewrite Hs. Qed.

(** The caller's cells after [leaveChat] (lines 163-166). *)
Lemma leaveChat_session sid w s w1 r :
  sessions w !! sid = Some s →
  leaveChat sid w = Some (r, w1) →
  sessions w1 !! sid =
    Some (mkSession [] (isConnected s) false None VNull (userId s)).
Proof.
  intros Hs. rewrite (leaveChat_unfold _ _ _ Hs). intros [= _ <-].
  rewrite rerender_sessions. lookup_session.
  by rewrite unsubscribe_sessions, Hs.
Qed.

Lemma leaveChat_idle sid w s :
  sessions w !! sid = Some s →
  messages s = [] → isPaired s = false →
  pairingCode s = None → messageCallback s = VNull →
  leaveChat sid w = Some (Returns (), w).
Proof.
  intros Hs Hm Hp Hc Hcb. rewrite (leaveChat_unfold _ _ _ Hs).
  rewrite Hc, Hcb, unsubscribe_falsy by done. unfold_setters.
  rewrite !setState_id.
  { unfold rerender. rewrite Hs, decide_True; [done|]. by rewrite Hc, Hcb. }
  all: intros s' Hs'; rewrite ?lookup_setState in Hs'; simpl in Hs';
    rewrite ?decide_True in Hs' by done; rewrite Hs in Hs'; simpl in Hs';
    injection Hs' as <-; destruct s; simpl in *; congruence.
Qed.

(** C9.  [leaveChat] is idempotent: on every mounted session it returns
    without raising, leaves the session with an empty log, unpaired, with no
    code and no callback, and a second call right after the first returns
    without raising and leaves the whole world (room registry and every
    session's cells) exactly as the first call left it. *)
Theorem leaveChat_idempotent (w : World) (sid : nat) (s : Session) :
  sessions w !! sid = Some s →
  ∃ w1, leaveChat sid w = Some (Returns (), w1) ∧
        sessions w1 !! sid =
          Some (mkSession [] (isConnected s) false None VNull (userId s)) ∧
        leaveChat sid w1 = Some (Returns (), w1).
Proof.
  intros Hs. pose proof (leaveChat_unfold _ _ _ Hs) as Hl.
  eexists. split; [exact Hl|].
  pose proof (leaveChat_session _ _ _ _ _ Hs Hl) as Hs1.
  split; [exact Hs1|]. by eapply leaveChat_idle.
Qed.

(** ** Joining *)

Lemma joinChat_unfold b code w sb room :
  sessions w !! b = Some sb →
  rooms w !! code = Some room →
  creator room ≠ userId sb →
  let cb := mkCallback (objects w) b in
  joinChat b code (Returns ()) w =
    Some (Returns true,
          rerender b sb
            (setIsPaired b true
               (with_rooms (<[code := mkRoom (creator room) (Set_add cb (listeners room))]>)
                  (setMessageCallback b (VFun cb)
                     (new_object (setPairingCode b (Some code) w)).2)))).
Proof.
  intros Hs Hr Hc cb. unfold joinChat. rewrite Hs; simpl. rewrite Hr.
  by rewrite decide_False.
Qed.

Lemma joinChat_returns_true b code w sb room :
  sessions w !! b = Some sb →
  rooms w !! code = Some room →
  creator room ≠ userId sb →
  ∃ w', joinChat b code (Returns ()) w = Some (Returns true, w').
Proof. intros Hs Hr Hc. rewrite (joinChat_unfold _ _ _ _ _ Hs Hr Hc). eauto. Qed.

Lemma setMessageCallback_function sid cb w s j :
  sessions w !! sid = Some s →
  sessions (setMessageCallback sid (VFun cb) w) !! j =
    if decide (sid = j) then
      (λ s', mkSession (messages s') (isConnected s') (isPaired s') (pairingCode s')
                       (VPromise (objects w)) (userId s'))
        <$> sessions
              (match as_message (messageCallback s) with
               | ANull => w
               | AObject ct ty =>
                   setMessages (cb_owner cb)
                     (λ prev, prev ++ [Message.mk (uuids w) ct ty (Date_now w) peer true]) w
               end) !! j
    else
      sessions
        (match as_message (messageCallback s) with
         | ANull => w
         | AObject ct ty =>
             setMessages (cb_owner cb)
               (λ prev, prev ++ [Message.mk (uuids w) ct ty (Date_now w) peer true]) w
         end) !! j.
Proof.
  intros Hs. unfold setMessageCallback. rewrite Hs.
  unfold callback; cbn.
  destruct (as_message (messageCallback s)); cbn;
    unfold storeMessageCallback; rewrite lookup_setState; reflexivity.
Qed.

(** The cells of every session after a successful join. *)
Lemma joinChat_sessions b code w sb room :
  sessions w !! b = Some sb →
  rooms w !! code = Some room →
  creator room ≠ userId sb →
  ∃ w', joinChat b code (Returns ()) w = Some (Returns true, w') ∧
        sessions w' !! b =
          Some (mkSession (messages sb ++ updater_message (messageCallback sb) w)
                          (isConnected sb) true (Some code)
                          (VPromise (S (objects w))) (userId sb)) ∧
        ∀ j, j ≠ b → sessions w' !! j = sessions w !! j.
Proof.
  intros Hs Hr Hc. rewrite (joinChat_unfold _ _ _ _ _ Hs Hr Hc).
  assert (sessions (new_object (setPairingCode b (Some code) w)).2 !! b =
          Some (mkSession (messages sb) (isConnected sb) (isPaired sb)
                          (Some code) (messageCallback sb) (userId sb))) as Hs2.
  { cbn. lookup_session. by rewrite Hs. }
  eexists. split; [reflexivity|]. split.
  - rewrite rerender_sessions. unfold setIsPaired.
    rewrite lookup_setState, decide_True by done.
    rewrite sessions_with_rooms.
    erewrite setMessageCallback_function by exact Hs2.
    rewrite decide_True by done. unfold updater_message. cbn.
    destruct (as_message (messageCallback sb)); cbn; unfold_setters;
      repeat (rewrite lookup_setState, decide_True by done; cbn);
      rewrite Hs; cbn; [by rewrite app_nil_r | reflexivity].
  - intros j Hj. rewrite rerender_sessions. unfold setIsPaired.
    rewrite lookup_setState, decide_False by done.
    rewrite sessions_with_rooms.
    erewrite setMessageCallback_function by exact Hs2.
    rewrite decide_False by done. cbn.
    destruct (as_message (messageCallback sb)); cbn; unfold_setters;
      repeat (rewrite lookup_setState, decide_False by congruence; cbn);
      reflexivity.
Qed.

(** A successful join by a session whose [messageCallback] cell holds no
    function: the result, the room and the sessions. *)
Lemma joinChat_success b code w sb room :
  sessions w !! b = Some sb →
  rooms w !! code = Some room →
  creator room ≠ userId sb →
  is_function (messageCallback sb) = false →
  ∃ w', joinChat b code (Returns ()) w = Some (Returns true, w') ∧
        rooms w' !! code =
          Some (mkRoom (creator room)
                       (Set_add (mkCallback (objects w) b) (listeners room))) ∧
        sessions w' !! b =
          Some (mkSession (messages sb ++ updater_message (messageCallback sb) w)
                          (isConnected sb) true (Some code)
                          (VPromise (S (objects w))) (userId sb)) ∧
        ∀ j, j ≠ b → sessions w' !! j = sessions w !! j.
Proof.
  intros Hs Hr Hc Hf.
  destruct (joinChat_sessions _ _ _ _ _ Hs Hr Hc) as (w' & Hj & Hb & Hother).
  exists w'. split; [exact Hj|]. split; [|by split].
  clear Hb Hother.
  rewrite (joinChat_unfold _ _ _ _ _ Hs Hr Hc) in Hj. injection Hj as <-.
  set (w2 := setIsPaired _ _ _).
  assert (rooms w2 !! code =
          Some (mkRoom (creator room)
                  (Set_add (mkCallback (objects w) b) (listeners room)))) as Hr2.
  { subst w2. simpl. apply lookup_insert_eq. }
  unfold rerender. destruct (sessions w2 !! b) as [s2|]; [|exact Hr2].
  case_decide; [exact Hr2|].
  apply unsubscribe_not_function_rooms; [done..|]. apply Set_add_not_nil.
Qed.

Lemma rerender_falsy sid prev w :
  truthy_code (pairingCode prev) && truthy (messageCallback prev) = false →
  rerender sid prev w = w.
Proof.
  intros H. unfold rerender. repeat case_match; try reflexivity.
  by apply unsubscribe_falsy.
Qed.

(** A session whose [messageCallback] cell is [null] skips the cleanup
    branch of [leaveChat] (line 154): the registry is left as it was. *)
Lemma leaveChat_no_callback_rooms sid w s w1 r :
  sessions w !! sid = Some s →
  messageCallback s = VNull →
  leaveChat sid w = Some (r, w1) →
  rooms w1 = rooms w.
Proof.
  intros Hs Hcb. rewrite (leaveChat_unfold _ _ _ Hs). intros [= _ <-].
  rewrite rerender_falsy by (rewrite Hcb; apply andb_false_r).
  rewrite unsubscribe_falsy by (rewrite Hcb; apply andb_false_r).
  reflexivity.
Qed.

(** C10, as the code has it.  [generateCode] creates the room with an
    empty listener set and does not write the [messageCallback] cell.  For
    a creator whose cell is [null] (a session that has not joined a room
    since it mounted or last left) the cell is still [null] afterwards; if
    that creator then calls [leaveChat] before anyone joined, the cleanup
    branch is skipped and the registry is unchanged, so a later [joinChat]
    with that code by a session of another identity (key generation
    succeeding) finds the room and returns [true]. *)
Theorem creator_leave_keeps_room (w w1 : World) (a : nat) (sa : Session)
    (kp : Outcome ()) (pc : Outcome string) (code : string) :
  sessions w !! a = Some sa →
  messageCallback sa = VNull →
  generateCode a kp pc w = Some (Returns code, w1) →
  rooms w1 !! code = Some (mkRoom (userId sa) []) ∧
  messageCallback <$> sessions w1 !! a = Some VNull ∧
  ∃ w2, leaveChat a w1 = Some (Returns (), w2) ∧
        rooms w2 = rooms w1 ∧
        ∀ b sb, sessions w2 !! b = Some sb →
                userId sb ≠ userId sa →
                ∃ w3, joinChat b code (Returns ()) w2 = Some (Returns true, w3).
Proof.
  intros Hs Hcb (s & Hs' & Hr & Hs1)%generateCode_post.
  rewrite Hs in Hs'. injection Hs' as <-.
  split; [exact Hr|]. split; [by rewrite Hs1; simpl; rewrite Hcb|].
  pose proof (leaveChat_unfold _ _ _ Hs1) as Hl.
  eexists. split; [exact Hl|].
  pose proof (leaveChat_no_callback_rooms _ _ _ _ _ Hs1 Hcb Hl) as Hrooms.
  split; [exact Hrooms|].
  intros b sb Hb Hid. eapply joinChat_returns_true; [exact Hb| |].
  - rewrite Hrooms. exact Hr.
  - simpl. congruence.
Qed.

(** ** Admission of joiners *)

(** C2, as the code has it.  [joinChat] admits every session that is not
    the room's creator and keeps no count of joiners: after one session has
    joined a room, a [joinChat] with the same code by another session (not
    the creator, key generation succeeding) returns [true] as well, and the
    room's listener set then holds the callbacks of both joiners.  (The
    [messageCallback] cells of the two sessions hold no function, as in
    every reachable world.) *)
Theorem joinChat_admits_second_joiner (w w1 : World) (a b : nat)
    (sa sb : Session) (code : string) (room : Room) :
  sessions w !! a = Some sa →
  sessions w !! b = Some sb →
  a ≠ b →
  rooms w !! code = Some room →
  creator room ≠ userId sa →
  creator room ≠ userId sb →
  is_function (messageCallback sa) = false →
  is_function (messageCallback sb) = false →
  joinChat a code (Returns ()) w = Some (Returns true, w1) →
  ∃ w2 ls,
    joinChat b code (Returns ()) w1 = Some (Returns true, w2) ∧
    rooms w2 !! code = Some (mkRoom (creator room) ls) ∧
    mkCallback (objects w) a ∈ ls ∧
    mkCallback (objects w1) b ∈ ls ∧
    2 ≤ length ls.
Proof.
  intros Ha Hb Hab Hr Hca Hcb Hfa Hfb Hj.
  destruct (joinChat_success _ _ _ _ _ Ha Hr Hca Hfa)
    as (w1' & Hj' & Hr1 & _ & Hother).
  rewrite Hj in Hj'. injection Hj' as <-.
  assert (sessions w1 !! b = Some sb) as Hb1 by (by rewrite Hother).
  destruct (joinChat_success _ _ _ _ _ Hb1 Hr1 Hcb Hfb)
    as (w2 & Hj2 & Hr2 & _ & _).
  exists w2. eexists. split; [exact Hj2|]. split; [exact Hr2|].
  simpl. set (ca := mkCallback (objects w) a). set (cb := mkCallback (objects w1) b).
  assert (ca ∈ Set_add cb (Set_add ca (listeners room))) as Hin_a
    by apply Set_add_keeps, Set_add_elem.
  assert (cb ∈ Set_add cb (Set_add ca (listeners room))) as Hin_b
    by apply Set_add_elem.
  split; [exact Hin_a|]. split; [exact Hin_b|].
  assert (ca ≠ cb) as Hne by (subst ca cb; congruence).
  destruct (Set_add cb (Set_add ca (listeners room))) as [|x [|y l]]; simpl.
  - by apply not_elem_of_nil in Hin_a.
  - apply list_elem_of_singleton in Hin_a, Hin_b. congruence.
  - lia.
Qed.

(** ** Sending *)

Lemma append_log_nil (o : option Session) : append_log [] <$> o = o.
Proof.
  destruct o as [[m ic ip pc mc u]|]; [|done].
  unfold append_log; simpl. by rewrite app_nil_r.
Qed.

Lemma append_log_app r1 r2 (o : option Session) :
  append_log r2 <$> (append_log r1 <$> o) = append_log (r1 ++ r2) <$> o.
Proof.
  destruct o as [s|]; [|done]. unfold append_log; simpl. by rewrite app_assoc.
Qed.

(** One delivery: the owner of the callback gets one more [peer] entry. *)
Lemma callback_deliver c ct ty w j :
  sessions (callback c (AObject ct ty) w).2 !! j =
    if decide (cb_owner c = j)
    then append_log [Message.mk (uuids w) ct ty (Date_now w) peer true]
           <$> sessions w !! j
    else sessions w !! j.
Proof.
  unfold callback; cbn. unfold setMessages. rewrite lookup_setState. reflexivity.
Qed.

Lemma broadcast_cons own m l ls w :
  broadcast own m (l :: ls) w =
  broadcast own m ls
    (if decide (VFun l ≠ own) then (callback l m w).2 else w).
Proof. reflexivity. Qed.

Lemma broadcast_sessions own ct ty ls w j :
  ∃ rest,
    sessions (broadcast own (AObject ct ty) ls w) !! j =
      append_log rest <$> sessions w !! j ∧
    Forall (is_delivery ct ty) rest ∧
    length rest = length (reaching own j ls).
Proof.
  revert w. induction ls as [|l ls IH]; intros w.
  - exists []. by rewrite append_log_nil.
  - rewrite broadcast_cons. unfold reaching in *.
    destruct (decide (VFun l ≠ own)) as [Hl|Hl].
    + destruct (IH (callback l (AObject ct ty) w).2) as (rest & Hs & Hall & Hlen).
      rewrite callback_deliver in Hs.
      destruct (decide (cb_owner l = j)) as [Hj|Hj].
      * exists (Message.mk (uuids w) ct ty (Date_now w) peer true :: rest).
        rewrite Hs, append_log_app. split; [done|]. split.
        -- constructor; [done|exact Hall].
        -- rewrite filter_cons_True by done. simpl. by rewrite Hlen.
      * exists rest. split; [done|]. split; [done|].
        rewrite filter_cons_False by (intros [_ ?]; done). done.
    + destruct (IH w) as (rest & Hs & Hall & Hlen).
      exists rest. split; [done|]. split; [done|].
      rewrite filter_cons_False by (intros [? _]; done). done.
Qed.

Lemma sendMessage_unfold sid content type w s :
  sessions w !! sid = Some s →
  isPaired s = true →
  truthy_code (pairingCode s) = true →
  let m := Message.mk (uuids w) (Some content) (Some type) (Date_now w) self true in
  let w1 := setMessages sid (λ prev, prev ++ [m]) (uuidv4 w).2 in
  sendMessage sid content type w =
    Some (Returns (),
          match pairingCode s ≫= (rooms w !!.) with
          | Some room =>
              broadcast (messageCallback s) (AObject (Some content) (Some type))
                        (listeners room) w1
          | None => w1
          end).
Proof.
  intros Hs Hp Hc m w1. unfold sendMessage. rewrite Hs; simpl.
  rewrite Hp, Hc. reflexivity.
Qed.

(** The effect of a send on the sender and on the registry. *)
Lemma sendMessage_effect (w : World) (sid : nat) (s : Session)
    (code content : string) (type : MessageType) :
  sessions w !! sid = Some s →
  isPaired s = true →
  pairingCode s = Some code →
  code ≠ "" →
  let m := Message.mk (uuids w) (Some content) (Some type) (Date_now w) self true in
  ∃ w' rest,
    sendMessage sid content type w = Some (Returns (), w') ∧
    sessions w' !! sid = Some (append_log (m :: rest) s) ∧
    Forall (λ x, Message.sender x = peer) rest ∧
    length rest =
      length (reaching (messageCallback s) sid
                       (default [] (listeners <$> rooms w !! code))) ∧
    rooms w' = rooms w ∧
    (rooms w !! code = None →
     w' = setMessages sid (λ prev, prev ++ [m]) (uuidv4 w).2).
Proof.
  intros Hs Hp Hc Hne m.
  assert (truthy_code (pairingCode s) = true) as Ht.
  { rewrite Hc; simpl. apply negb_true_iff. by apply String.eqb_neq. }
  rewrite (sendMessage_unfold _ content type _ _ Hs Hp Ht). rewrite Hc; simpl.
  fold m. set (w1 := setMessages sid _ _).
  assert (sessions w1 !! sid = Some (append_log [m] s)) as Hs1.
  { subst w1. unfold setMessages. rewrite lookup_setState, decide_True by done.
    cbn. by rewrite Hs. }
  destruct (rooms w !! code) as [room|] eqn:Hr; simpl.
  - destruct (broadcast_sessions (messageCallback s) (Some content) (Some type)
                (listeners room) w1 sid) as (rest & Hb & Hall & Hlen).
    eexists _, rest. split; [reflexivity|]. split; [|split; [|split; [|split]]].
    + rewrite Hb, Hs1. simpl. unfold append_log; simpl. by rewrite <- app_assoc.
    + eapply Forall_impl; [exact Hall|]. by intros x [? _].
    + exact Hlen.
    + by rewrite broadcast_rooms.
    + done.
  - exists w1, []. split; [reflexivity|]. split; [exact Hs1|]. done.
Qed.

(** C7.  For every paired session ([isPaired] true and a non-empty pairing
    code), [sendMessage content type] returns without raising and extends the sender's own log by exactly one entry
    with [sender = self]: that entry carries the given content and type and
    [encrypted = true], and whatever else the same call appends to that log
    behind it has [sender = peer] (one entry per listener of the room that
    writes to this session's log).  This holds whoever is subscribed.  If
    the room of the session's code is absent from the registry, the call
    still returns normally and its whole effect is the local append: nothing
    is delivered to anyone.  The registry itself is never changed. *)
Theorem sendMessage_local_echo (w : World) (sid : nat) (s : Session)
    (code content : string) (type : MessageType) :
  sessions w !! sid = Some s →
  isPaired s = true →
  pairingCode s = Some code →
  code ≠ "" →
  let m := Message.mk (uuids w) (Some content) (Some type) (Date_now w) self true in
  ∃ w' rest,
    sendMessage sid content type w = Some (Returns (), w') ∧
    sessions w' !! sid = Some (append_log (m :: rest) s) ∧
    Forall (λ x, Message.sender x = peer) rest ∧
    length rest =
      length (reaching (messageCallback s) sid
                       (default [] (listeners <$> rooms w !! code))) ∧
    rooms w' = rooms w ∧
    (rooms w !! code = None →
     w' = setMessages sid (λ prev, prev ++ [m]) (uuidv4 w).2).
Proof. apply sendMessage_effect. Qed.

(** A sender to whose log no listener of its room writes (the creator of a
    room, for one) gets exactly the entry it sent. *)
Lemma sendMessage_appends_one (w : World) (sid : nat) (s : Session)
    (code content : string) (type : MessageType) :
  sessions w !! sid = Some s →
  isPaired s = true →
  pairingCode s = Some code →
  code ≠ "" →
  reaching (messageCallback s) sid
           (default [] (listeners <$> rooms w !! code)) = [] →
  ∃ w',
    sendMessage sid content type w = Some (Returns (), w') ∧
    sessions w' !! sid =
      Some (append_log [Message.mk (uuids w) (Some content) (Some type)
                                   (Date_now w) self true] s).
Proof.
  intros Hs Hp Hc Hne Hnone.
  destruct (sendMessage_effect w sid s code content type Hs Hp Hc Hne)
    as (w' & rest & Hsend & Hlog & _ & Hlen & _).
  rewrite Hnone in Hlen. destruct rest; [|discriminate]. eauto.
Qed.

(** What a send does to the log of another provider [j]: one [peer] entry,
    with the content and type sent, per listener of the room that writes to
    [j]'s log; nothing when the room has no such listener. *)
Lemma sendMessage_delivery (w : World) (sid j : nat) (s : Session)
    (code content : string) (type : MessageType) :
  sessions w !! sid = Some s →
  isPaired s = true →
  pairingCode s = Some code →
  code ≠ "" →
  j ≠ sid →
  ∃ w' rest,
    sendMessage sid content type w = Some (Returns (), w') ∧
    sessions w' !! j = append_log rest <$> sessions w !! j ∧
    Forall (is_delivery (Some content) (Some type)) rest ∧
    length rest =
      length (reaching (messageCallback s) j
                       (default [] (listeners <$> rooms w !! code))).
Proof.
  intros Hs Hp Hc Hne Hj.
  assert (truthy_code (pairingCode s) = true) as Ht.
  { rewrite Hc; simpl. apply negb_true_iff. by apply String.eqb_neq. }
  rewrite (sendMessage_unfold _ content type _ _ Hs Hp Ht). rewrite Hc; simpl.
  set (w1 := setMessages sid _ _).
  assert (sessions w1 !! j = sessions w !! j) as Hj1.
  { subst w1. unfold setMessages. by rewrite lookup_setState, decide_False. }
  destruct (rooms w !! code) as [room|] eqn:Hr; simpl.
  - destruct (broadcast_sessions (messageCallback s) (Some content) (Some type)
                (listeners room) w1 j) as (rest & Hb & Hall & Hlen).
    eexists _, rest. split; [reflexivity|]. by rewrite Hb, Hj1.
  - exists w1, []. split; [reflexivity|]. by rewrite Hj1, append_log_nil.
Qed.

(** ** The [messageCallback] cell never holds the callback

    Line 111 hands the closure to the state setter, which calls it as an
    updater and stores the promise it returns.  No operation ever stores a
    function in the cell. *)

Arguments setMessageCallback : simpl never.
Arguments callback : simpl never.
Arguments broadcast : simpl never.
Arguments unsubscribe : simpl never.
Arguments rerender : simpl never.
Arguments with_rooms : simpl never.

Lemma nf_sessions w w' :
  sessions w' = sessions w → no_function_cell w → no_function_cell w'.
Proof. unfold no_function_cell. by intros ->. Qed.

Lemma nf_setState sid f w :
  (∀ s, is_function (messageCallback s) = false →
        is_function (messageCallback (f s)) = false) →
  no_function_cell w → no_function_cell (setState sid f w).
Proof.
  intros Hf Hw j s'. rewrite lookup_setState. case_decide as E; [|apply Hw].
  destruct (sessions w !! j) as [s|] eqn:Hs; simpl; [|done].
  intros [= <-]. apply Hf. by eapply Hw.
Qed.

Lemma nf_callback c m w : no_function_cell w → no_function_cell (callback c m w).2.
Proof.
  intros Hw. unfold callback. destruct m; cbn.
  - by eapply nf_sessions.
  - eapply (nf_sessions (setMessages (cb_owner c) _ w)); [reflexivity|].
    by apply nf_setState.
Qed.

Lemma nf_broadcast own m ls w :
  no_function_cell w → no_function_cell (broadcast own m ls w).
Proof.
  revert w. induction ls as [|l ls IH]; intros w Hw; [done|].
  rewrite broadcast_cons. apply IH. case_decide; [by apply nf_callback|done].
Qed.

Lemma nf_setMessageCallback sid v w :
  no_function_cell w → no_function_cell (setMessageCallback sid v w).
Proof.
  intros Hw. unfold setMessageCallback. destruct v as [|f|p].
  - by apply nf_setState.
  - destruct (sessions w !! sid) as [s|]; [|done].
    unfold callback. destruct (as_message (messageCallback s)); cbn.
    + apply nf_setState; [done|]. by eapply nf_sessions.
    + apply nf_setState; [done|].
      eapply (nf_sessions (setMessages (cb_owner f) _ w)); [reflexivity|].
      by apply nf_setState.
  - by apply nf_setState.
Qed.

Lemma nf_ChatProvider sid w : no_function_cell w → no_function_cell (ChatProvider sid w).
Proof.
  intros Hw j s. unfold ChatProvider; cbn. rewrite lookup_insert.
  case_decide; [by intros [= <-]|apply Hw].
Qed.

Lemma nf_generateCode sid kp pc w r w' :
  generateCode sid kp pc w = Some (r, w') →
  no_function_cell w → no_function_cell w'.
Proof.
  unfold generateCode. destruct (sessions w !! sid) as [s|]; cbn; [|done].
  destruct kp; [|by intros [= _ <-]]. destruct pc; [|by intros [= _ <-]].
  intros [= _ <-] Hw. eapply nf_sessions; [apply rerender_sessions|].
  apply nf_setState; [done|]. apply nf_setState; [done|].
  by eapply nf_sessions.
Qed.

Lemma nf_joinChat sid code kp w r w' :
  joinChat sid code kp w = Some (r, w') →
  no_function_cell w → no_function_cell w'.
Proof.
  unfold joinChat. destruct (sessions w !! sid) as [s|]; cbn; [|done].
  destruct (rooms w !! code) as [room|]; [|by intros [= _ <-]].
  case_decide; [by intros [= _ <-]|]. destruct kp; [|by intros [= _ <-]].
  intros [= _ <-] Hw. eapply nf_sessions; [apply rerender_sessions|].
  apply nf_setState; [done|].
  eapply nf_sessions; [apply sessions_with_rooms|].
  apply nf_setMessageCallback.
  eapply (nf_sessions (setPairingCode sid (Some code) w)); [reflexivity|].
  by apply nf_setState.
Qed.

Lemma nf_sendMessage sid content type w r w' :
  sendMessage sid content type w = Some (r, w') →
  no_function_cell w → no_function_cell w'.
Proof.
  unfold sendMessage. destruct (sessions w !! sid) as [s|]; cbn; [|done].
  destruct (negb (isPaired s) || negb (truthy_code (pairingCode s)));
    [by intros [= _ <-]|].
  intros [= _ <-] Hw.
  assert (no_function_cell
            (setMessages sid
               (λ prev, prev ++ [Message.mk (uuids w) (Some content) (Some type)
                                             (Date_now w) self true])
               (uuidv4 w).2)) as Hw1.
  { apply nf_setState; [done|]. by eapply nf_sessions. }
  cbn. destruct (pairingCode s ≫= _); [by apply nf_broadcast|done].
Qed.

Lemma nf_leaveChat sid w r w' :
  leaveChat sid w = Some (r, w') →
  no_function_cell w → no_function_cell w'.
Proof.
  unfold leaveChat. destruct (sessions w !! sid) as [s|]; cbn; [|done].
  intros [= _ <-] Hw. eapply nf_sessions; [apply rerender_sessions|].
  repeat (apply nf_setState; [done|]).
  eapply nf_sessions; [apply unsubscribe_sessions|done].
Qed.

Lemma reachable_no_function_cell w : reachable w → no_function_cell w.
Proof.
  unfold reachable. intros Hr.
  apply rtc_nsteps in Hr as [n Hr]. revert w Hr.
  induction n as [|n IH]; intros w Hr.
  - inversion Hr; subst. intros j s. unfold initial; cbn. by rewrite lookup_empty.
  - apply nsteps_inv_r in Hr as (w0 & Hr & Hstep). specialize (IH _ Hr).
    inversion Hstep; subst.
    + by apply nf_ChatProvider.
    + by eapply nf_sessions.
    + by eapply nf_generateCode.
    + by eapply nf_joinChat.
    + by eapply nf_sendMessage.
    + by eapply nf_leaveChat.
Qed.

(** ** Leaving does not unsubscribe

    Since the cell holds no function, the [delete] at line 157 (and at line
    48) removes nothing: a room that has a listener keeps all its listeners
    and stays in the registry when a session leaves. *)
Lemma leaveChat_keeps_listeners sid w s w1 r c room :
  sessions w !! sid = Some s →
  is_function (messageCallback s) = false →
  rooms w !! c = Some room →
  listeners room ≠ [] →
  leaveChat sid w = Some (r, w1) →
  rooms w1 !! c = Some room.
Proof.
  intros Hs Hf Hr Hne. rewrite (leaveChat_unfold _ _ _ Hs). intros [= _ <-].
  set (w2 := storeMessageCallback _ _ _).
  assert (rooms w2 !! c = Some room) as Hr2.
  { subst w2. unfold_setters. rewrite !rooms_setState.
    by apply unsubscribe_not_function_rooms. }
  unfold rerender. destruct (sessions w2 !! sid); [|exact Hr2].
  case_decide; [exact Hr2|]. by apply unsubscribe_not_function_rooms.
Qed.

(** A session joins, then leaves: its callback is still subscribed and the
    room is still there for anyone to join. *)
Lemma join_leave_keeps_room (w w1 w2 : World) (b d : nat) (sb sd : Session)
    (code : string) (room : Room) :
  sessions w !! b = Some sb →
  is_function (messageCallback sb) = false →
  rooms w !! code = Some room →
  creator room ≠ userId sb →
  joinChat b code (Returns ()) w = Some (Returns true, w1) →
  leaveChat b w1 = Some (Returns (), w2) →
  sessions w2 !! d = Some sd →
  creator room ≠ userId sd →
  (∃ ls, rooms w2 !! code = Some (mkRoom (creator room) ls) ∧
         mkCallback (objects w) b ∈ ls) ∧
  ∃ w3, joinChat d code (Returns ()) w2 = Some (Returns true, w3).
Proof.
  intros Hb Hf Hr Hc Hj Hl Hd Hcd.
  destruct (joinChat_success _ _ _ _ _ Hb Hr Hc Hf) as (w1' & Hj' & Hr1 & Hb1 & _).
  rewrite Hj in Hj'. injection Hj' as <-.
  pose proof (leaveChat_keeps_listeners _ _ _ _ _ _ _ Hb1 eq_refl Hr1
                (Set_add_not_nil _ _) Hl) as Hr2.
  split.
  - eexists. split; [exact Hr2|]. apply Set_add_elem.
  - by eapply joinChat_returns_true.
Qed.

(** The cleanup itself is sound: had the cell held the subscribed closure,
    a sole subscriber leaving would have emptied the listener set and
    removed the room. *)
Lemma leaveChat_removes_stored_function sid w s code cb room w1 r :
  sessions w !! sid = Some s →
  pairingCode s = Some code →
  code ≠ "" →
  messageCallback s = VFun cb →
  rooms w !! code = Some room →
  listeners room = [cb] →
  leaveChat sid w = Some (r, w1) →
  rooms w1 !! code = None.
Proof.
  intros Hs Hc Hne Hcb Hr Hl. rewrite (leaveChat_unfold _ _ _ Hs).
  intros [= _ <-]. rewrite Hc, Hcb.
  assert (truthy_code (Some code) && truthy (VFun cb) = true) as Ht.
  { unfold truthy_code. apply String.eqb_neq in Hne as ->. reflexivity. }
  set (w2 := storeMessageCallback _ _ _).
  assert (rooms w2 !! code = None) as Hr2.
  { subst w2. unfold_setters. rewrite !rooms_setState. unfold unsubscribe.
    rewrite Ht, Hr, Hl. unfold Set_delete.
    rewrite filter_cons_False by (intros H; by apply H).
    cbn. apply lookup_delete_eq. }
  unfold rerender. destruct (sessions w2 !! sid); [|exact Hr2].
  case_decide; [exact Hr2|]. unfold unsubscribe. by rewrite Hc, Hcb, Ht, Hr2.
Qed.

(** ** The two directions of a paired conversation *)

Section Paired.
Variables (w w1 w2 : World) (a b : nat) (sa sb : Session).
Variables (kp : Outcome ()) (pc : Outcome string) (code : string).
Hypothesis Ha : sessions w !! a = Some sa.
Hypothesis Hb : sessions w !! b = Some sb.
Hypothesis Hid : userId sa ≠ userId sb.
Hypothesis Hfa : is_function (messageCallback sa) = false.
Hypothesis Hfb : is_function (messageCallback sb) = false.
Hypothesis Hcode : code ≠ "".
Hypothesis Hgen : generateCode a kp pc w = Some (Returns code, w1).
Hypothesis Hjoin : joinChat b code (Returns ()) w1 = Some (Returns true, w2).

Lemma paired_distinct : a ≠ b.
Proof using Ha Hb Hid.
  intros Heq. apply Hid. pose proof Ha as H1. rewrite Heq, Hb in H1. congruence.
Qed.

Lemma paired_state :
  rooms w2 !! code = Some (mkRoom (userId sa) [mkCallback (objects w1) b]) ∧
  sessions w2 !! a =
    Some (mkSession (messages sa) (isConnected sa) true (Some code)
                    (messageCallback sa) (userId sa)) ∧
  ∃ log, sessions w2 !! b =
           Some (mkSession log (isConnected sb) true (Some code)
                           (VPromise (S (objects w1))) (userId sb)).
Proof using All.
  pose proof paired_distinct as Hab.
  destruct (generateCode_post _ _ _ _ _ _ Hgen) as (s & Hs & Hr1 & Ha1).
  rewrite Ha in Hs. injection Hs as <-.
  assert (sessions w1 !! b = Some sb) as Hb1.
  { rewrite (generateCode_other _ _ _ _ _ _ b Hgen); [done|congruence]. }
  destruct (joinChat_success b code w1 sb _ Hb1 Hr1) as (w2' & Hj & Hr2 & Hb2 & Ho);
    [done..|].
  rewrite Hjoin in Hj. injection Hj as <-.
  split; [exact Hr2|]. split; [by rewrite Ho|]. eauto.
Qed.

(** Creator to joiner: the joiner's log gains exactly one [peer] entry
    with the content and type sent. *)
Lemma host_message_reaches_joiner content type :
  ∃ w3 x,
    sendMessage a content type w2 = Some (Returns (), w3) ∧
    is_delivery (Some content) (Some type) x ∧
    sessions w3 !! b = append_log [x] <$> sessions w2 !! b.
Proof using All.
  pose proof paired_distinct as Hab.
  destruct paired_state as (Hr2 & Ha2 & _).
  destruct (sendMessage_delivery w2 a b _ code content type Ha2 eq_refl eq_refl
              Hcode) as (w3 & rest & Hsend & Hlog & Hall & Hlen); [congruence|].
  rewrite Hr2 in Hlen. cbn in Hlen.
  rewrite decide_True in Hlen.
  2:{ split; [|done]. intros Heq. rewrite <- Heq in Hfa. discriminate. }
  destruct rest as [|x [|y rest]]; try discriminate.
  exists w3, x. split; [exact Hsend|]. split; [|exact Hlog].
  by apply Forall_cons_1 in Hall as [? _].
Qed.

(** Joiner to creator: the creator's log is left as it was. *)
Lemma joiner_message_is_not_delivered content type :
  ∃ w3,
    sendMessage b content type w2 = Some (Returns (), w3) ∧
    sessions w3 !! a = sessions w2 !! a.
Proof using All.
  pose proof paired_distinct as Hab.
  destruct paired_state as (Hr2 & _ & log & Hb2).
  destruct (sendMessage_delivery w2 b a _ code content type Hb2 eq_refl eq_refl
              Hcode) as (w3 & rest & Hsend & Hlog & Hall & Hlen); [done|].
  rewrite Hr2 in Hlen. cbn in Hlen.
  rewrite decide_False in Hlen by (intros [_ ?]; congruence).
  destruct rest; [|discriminate].
  exists w3. split; [exact Hsend|]. by rewrite Hlog, append_log_nil.
Qed.
End Paired.

Example ex_mounted_sessions :
  sessions ex_mounted !! 0 = Some (idle 0) ∧
  sessions ex_mounted !! 1 = Some (idle 1) ∧
  sessions ex_mounted !! 2 = Some (idle 2).
Proof. split_and!; vm_compute; reflexivity. Qed.

Example ex_hosted_ok :
  generateCode 0 (Returns ()) (Returns the_code) ex_mounted =
    Some (Returns the_code, ex_hosted).
Proof. vm_compute. reflexivity. Qed.

Example ex_joined_ok :
  joinChat 1 the_code (Returns ()) ex_hosted = Some (Returns true, ex_joined).
Proof. vm_compute. reflexivity. Qed.

Example ex_joined_state :
  rooms ex_joined !! the_code = Some (mkRoom 0 [mkCallback 0 1]) ∧
  sessions ex_joined !! 0 = Some (mkSession [] true true (Some the_code) VNull 0) ∧
  sessions ex_joined !! 1 =
    Some (mkSession [] true true (Some the_code) (VPromise 1) 1).
Proof. split_and!; vm_compute; reflexivity. Qed.

(** C1, evaluated.  Provider 0 generates the code and provider 1 joins it:
    the join returns [true], and a message sent by the host arrives in the
    joiner's log with [sender = peer] and the same content and type.  The
    other direction fails: the host has no listener in the room, so a
    message sent by the joiner leaves the host's log empty (and comes back
    into the joiner's own log as a [peer] entry). *)
Theorem joiner_message_never_reaches_host :
  generateCode 0 (Returns ()) (Returns the_code) ex_mounted =
    Some (Returns the_code, ex_hosted) ∧
  joinChat 1 the_code (Returns ()) ex_hosted = Some (Returns true, ex_joined) ∧
  sendMessage 0 "hello" text ex_joined = Some (Returns (), ex_host_sent) ∧
  messages <$> sessions ex_host_sent !! 1 =
    Some [Message.mk 5 (Some "hello") (Some text) 1000 peer true] ∧
  sendMessage 1 "hi" text ex_joined = Some (Returns (), ex_joiner_sent) ∧
  messages <$> sessions ex_joiner_sent !! 0 = Some [] ∧
  messages <$> sessions ex_joiner_sent !! 1 =
    Some [Message.mk 4 (Some "hi") (Some text) 1000 self true;
          Message.mk 5 (Some "hi") (Some text) 1000 peer true].
Proof. split_and!; vm_compute; reflexivity. Qed.

(** C2 fails on the code: with provider 1 already joined to the room,
    provider 2 joins the same code and is admitted too; the room then has
    two listeners. *)
Lemma second_joiner_is_admitted :
  joinChat 1 the_code (Returns ()) ex_hosted = Some (Returns true, ex_joined) ∧
  joinChat 2 the_code (Returns ()) ex_joined = Some (Returns true, ex_third_joined) ∧
  rooms ex_third_joined !! the_code =
    Some (mkRoom 0 [mkCallback 0 1; mkCallback 2 2]).
Proof. split_and!; vm_compute; reflexivity. Qed.

(** C3 fails on the code: when key generation fails for provider 1 joining
    the host's room, [joinChat] returns [false]; the error does not reach
    the caller. *)
Lemma keypair_failure_is_not_propagated :
  rooms ex_hosted !! the_code = Some (mkRoom 0 []) ∧
  joinChat 1 the_code (Throws (CryptoError "key generation failed")) ex_hosted =
    Some (Returns false, ex_hosted) ∧
  ¬ ∃ e w', joinChat 1 the_code (Throws (CryptoError "key generation failed"))
              ex_hosted = Some (Throws e, w').
Proof.
  assert (joinChat 1 the_code (Throws (CryptoError "key generation failed"))
            ex_hosted = Some (Returns false, ex_hosted)) as H
    by (vm_compute; reflexivity).
  split; [vm_compute; reflexivity|]. split; [exact H|].
  intros (e & w' & H'). rewrite H in H'. discriminate.
Qed.

(** C6, evaluated.  Provider 1 is the only subscriber of the host's room.
    After it calls [leaveChat] its callback is still in the room's listener
    set and the room is still in the registry, so [joinChat] with the same
    code by provider 2 returns [true]. *)
Theorem room_outlives_its_sole_subscriber :
  listeners <$> rooms ex_joined !! the_code = Some [mkCallback 0 1] ∧
  leaveChat 1 ex_joined = Some (Returns (), ex_left) ∧
  sessions ex_left !! 1 = Some (idle 1) ∧
  rooms ex_left !! the_code = Some (mkRoom 0 [mkCallback 0 1]) ∧
  fst <$> joinChat 2 the_code (Returns ()) ex_left = Some (Returns true).
Proof. split_and!; vm_compute; reflexivity. Qed.

(** C8, evaluated.  Provider 1 has just joined and its log is empty.  One
    [sendMessage] leaves its log with two entries: the message it sent and,
    behind it, the same message delivered to itself as a [peer] entry. *)
Theorem one_send_two_log_entries :
  messages <$> sessions ex_joined !! 1 = Some [] ∧
  sendMessage 1 "hi" text ex_joined = Some (Returns (), ex_joiner_sent) ∧
  messages <$> sessions ex_joiner_sent !! 1 =
    Some [Message.mk 4 (Some "hi") (Some text) 1000 self true;
          Message.mk 5 (Some "hi") (Some text) 1000 peer true] ∧
  length <$> (messages <$> sessions ex_joiner_sent !! 1) = Some 2.
Proof. split_and!; vm_compute; reflexivity. Qed.

(** C10 fails on the code for a creator that still holds a value in its
    [messageCallback] cell.  Provider 1, joined to the host's room, calls
    [generateCode] and gets ["111111"]: the room is created with no
    listener, and the cell still holds the promise of the earlier join.
    Its [leaveChat], before anyone joined, takes the cleanup branch of line
    154, finds the listener set empty and deletes the room; a later
    [joinChat] with that code by provider 2, or by the host, returns
    [false]. *)
Lemma joined_creator_leave_deletes_room :
  generateCode 1 (Returns ()) (Returns "111111") ex_joined =
    Some (Returns "111111", ex_rehosted) ∧
  rooms ex_rehosted !! "111111" = Some (mkRoom 1 []) ∧
  messageCallback <$> sessions ex_rehosted !! 1 = Some (VPromise 1) ∧
  leaveChat 1 ex_rehosted = Some (Returns (), ex_rehosted_left) ∧
  rooms ex_rehosted_left !! "111111" = None ∧
  joinChat 2 "111111" (Returns ()) ex_rehosted_left =
    Some (Returns false, ex_rehosted_left) ∧
  joinChat 0 "111111" (Returns ()) ex_rehosted_left =
    Some (Returns false, ex_rehosted_left).
Proof. split_and!; vm_compute; reflexivity. Qed.

(** ** The theorems at the example session *)

Lemma sendMessage_unpaired_fails_witness :
  sessions ex_mounted !! 1 = Some (idle 1) ∧
  sendMessage 1 "hi" text ex_mounted = Some (Throws NotPairedError, ex_mounted).
Proof.
  split; [vm_compute; reflexivity|].
  apply (sendMessage_unpaired_fails ex_mounted 1 (idle 1) "hi" text).
  - vm_compute; reflexivity.
  - left. reflexivity.
Defined.

Lemma joinChat_keypair_failure_witness :
  rooms ex_hosted !! the_code = Some (mkRoom 0 []) ∧
  joinChat 1 the_code (Throws (CryptoError "key generation failed")) ex_hosted =
    Some (Returns false, ex_hosted).
Proof.
  split; [vm_compute; reflexivity|].
  apply (joinChat_keypair_failure ex_hosted 1 (idle 1) the_code (mkRoom 0 [])).
  - vm_compute; reflexivity.
  - vm_compute; reflexivity.
  - simpl. lia.
Defined.

Lemma joinChat_own_code_rejected_witness :
  generateCode 0 (Returns ()) (Returns the_code) ex_mounted =
    Some (Returns the_code, ex_hosted) ∧
  joinChat 0 the_code (Returns ()) ex_hosted = Some (Returns false, ex_hosted).
Proof.
  split; [vm_compute; reflexivity|].
  apply (joinChat_own_code_rejected ex_mounted ex_hosted 0 (Returns ())
           (Returns the_code) the_code (Returns ())).
  vm_compute; reflexivity.
Defined.

Lemma leaveChat_idempotent_witness :
  sessions ex_joined !! 1 =
    Some (mkSession [] true true (Some the_code) (VPromise 1) 1) ∧
  ∃ w1, leaveChat 1 ex_joined = Some (Returns (), w1) ∧
        sessions w1 !! 1 = Some (idle 1) ∧
        leaveChat 1 w1 = Some (Returns (), w1).
Proof.
  split; [vm_compute; reflexivity|].
  apply (leaveChat_idempotent ex_joined 1
           (mkSession [] true true (Some the_code) (VPromise 1) 1)).
  vm_compute; reflexivity.
Defined.

Lemma creator_leave_keeps_room_witness :
  sessions ex_mounted !! 0 = Some (idle 0) ∧
  rooms ex_hosted !! the_code = Some (mkRoom (userId (idle 0)) []) ∧
  messageCallback <$> sessions ex_hosted !! 0 = Some VNull ∧
  ∃ w2, leaveChat 0 ex_hosted = Some (Returns (), w2) ∧
        rooms w2 = rooms ex_hosted ∧
        ∀ b sb, sessions w2 !! b = Some sb →
                userId sb ≠ userId (idle 0) →
                ∃ w3, joinChat b the_code (Returns ()) w2 = Some (Returns true, w3).
Proof.
  split; [vm_compute; reflexivity|].
  apply (creator_leave_keeps_room ex_mounted ex_hosted 0 (idle 0) (Returns ())
           (Returns the_code) the_code).
  - vm_compute; reflexivity.
  - reflexivity.
  - vm_compute; reflexivity.
Defined.

Lemma joinChat_admits_second_joiner_witness :
  joinChat 1 the_code (Returns ()) ex_hosted = Some (Returns true, ex_joined) ∧
  ∃ w2 ls,
    joinChat 2 the_code (Returns ()) ex_joined = Some (Returns true, w2) ∧
    rooms w2 !! the_code = Some (mkRoom (creator (mkRoom 0 [])) ls) ∧
    mkCallback (objects ex_hosted) 1 ∈ ls ∧
    mkCallback (objects ex_joined) 2 ∈ ls ∧
    2 ≤ length ls.
Proof.
  split; [vm_compute; reflexivity|].
  apply (joinChat_admits_second_joiner ex_hosted ex_joined 1 2 (idle 1) (idle 2)
           the_code (mkRoom 0 [])).
  - vm_compute; reflexivity.
  - vm_compute; reflexivity.
  - lia.
  - vm_compute; reflexivity.
  - simpl. lia.
  - simpl. lia.
  - reflexivity.
  - reflexivity.
  - vm_compute; reflexivity.
Defined.

Lemma sendMessage_local_echo_witness :
  sessions ex_joined !! 0 = Some ex_host ∧
  let m := Message.mk (uuids ex_joined) (Some "hello") (Some text)
                      (Date_now ex_joined) self true in
  ∃ w' rest,
    sendMessage 0 "hello" text ex_joined = Some (Returns (), w') ∧
    sessions w' !! 0 = Some (append_log (m :: rest) ex_host) ∧
    Forall (λ x, Message.sender x = peer) rest ∧
    length rest =
      length (reaching (messageCallback ex_host) 0
                (default [] (listeners <$> rooms ex_joined !! the_code))) ∧
    rooms w' = rooms ex_joined ∧
    (rooms ex_joined !! the_code = None →
     w' = setMessages 0 (λ prev, prev ++ [m]) (uuidv4 ex_joined).2).
Proof.
  split; [vm_compute; reflexivity|].
  apply (sendMessage_local_echo ex_joined 0 ex_host the_code "hello" text).
  - vm_compute; reflexivity.
  - reflexivity.
  - reflexivity.
  - discriminate.
Defined.

(** * Further properties of the operations *)

(** ** [generateCode] *)

(** X1.  When the crypto provider fails, in [generateKeyPair] or, after
    that succeeded, in [generatePairingCode], [generateCode] rejects with
    the provider's own error (line 73) and nothing has changed: no room was
    created and the session is as it was. *)
Theorem generateCode_rethrows (w : World) (sid : nat) (s : Session)
    (kp : Outcome ()) (pc : Outcome string) (e : Exn) :
  sessions w !! sid = Some s →
  kp = Throws e ∨ (kp = Returns () ∧ pc = Throws e) →
  generateCode sid kp pc w = Some (Throws e, w).
Proof.
  intros Hs H. unfold generateCode. rewrite Hs; simpl.
  destruct H as [-> | [-> ->]]; reflexivity.
Qed.

(** X2.  A successful [generateCode] registers under the code a room of the
    caller with no listener, whatever was registered there before: a room
    already using that code is replaced and its listeners are dropped.  The
    caller becomes paired with the code; its log and its callback cell are
    untouched, and so are all other sessions.  For a caller whose callback
    cell is [null] no other entry of the registry changes. *)
Theorem generateCode_registers_room (w : World) (sid : nat) (s : Session)
    (code : string) :
  sessions w !! sid = Some s →
  ∃ w1,
    generateCode sid (Returns ()) (Returns code) w = Some (Returns code, w1) ∧
    rooms w1 !! code = Some (mkRoom (userId s) []) ∧
    sessions w1 !! sid =
      Some (mkSession (messages s) (isConnected s) true (Some code)
                      (messageCallback s) (userId s)) ∧
    (∀ j, j ≠ sid → sessions w1 !! j = sessions w !! j) ∧
    (messageCallback s = VNull →
     rooms w1 = <[code := mkRoom (userId s) []]> (rooms w)).
Proof.
  intros Hs.
  assert (∃ w1, generateCode sid (Returns ()) (Returns code) w =
                Some (Returns code, w1)) as [w1 Hg].
  { unfold generateCode. rewrite Hs; simpl. eauto. }
  exists w1. split; [exact Hg|].
  destruct (generateCode_post _ _ _ _ _ _ Hg) as (s' & Hs' & Hr & Hs1).
  rewrite Hs in Hs'. injection Hs' as <-.
  split; [exact Hr|]. split; [exact Hs1|]. split.
  - intros j Hj. by eapply generateCode_other.
  - intros Hcb.
    destruct (generateCode_success _ _ _ _ _ _ Hg) as (s' & Hs' & _ & ->).
    rewrite Hs in Hs'. injection Hs' as <-.
    rewrite rerender_falsy by (rewrite Hcb; apply andb_false_r).
    reflexivity.
Qed.

(** ** [joinChat] *)

Lemma setMessageCallback_rooms sid v w :
  rooms (setMessageCallback sid v w) = rooms w.
Proof.
  unfold setMessageCallback. destruct v; try reflexivity.
  destruct (sessions w !! sid) as [s|]; [|reflexivity].
  unfold callback. by destruct (as_message (messageCallback s)).
Qed.

(** X3.  [joinChat] never rejects.  It returns [true] exactly when the code
    names a room, the room's creator is not the caller, and key generation
    succeeded; in every other case it returns [false] and nothing has
    changed (in particular an unknown code creates no room). *)
Theorem joinChat_result (w : World) (sid : nat) (s : Session) (code : string)
    (kp : Outcome ()) :
  sessions w !! sid = Some s →
  ∃ b w',
    joinChat sid code kp w = Some (Returns b, w') ∧
    (b = true ↔
       (∃ room, rooms w !! code = Some room ∧ creator room ≠ userId s) ∧
       kp = Returns ()) ∧
    (b = false → w' = w).
Proof.
  intros Hs. unfold joinChat. rewrite Hs; cbn.
  destruct (rooms w !! code) as [room|] eqn:Hr.
  - destruct (decide (creator room = userId s)) as [Hc|Hc].
    + exists false, w. split; [done|]. split; [|done].
      split; [done|]. intros [(r & [= <-] & Hne) _]. done.
    + destruct kp as [[]|e].
      * eexists true, _. split; [done|]. split; [|done].
        split; [|done]. intros _. split; [|done]. eauto.
      * exists false, w. split; [done|]. split; [|done].
        split; [done|]. intros [_ [=]].
  - exists false, w. split; [done|]. split; [|done].
    split; [done|]. intros [(r & [=] & _) _].
Qed.

(** X4.  A successful [joinChat] by a session whose callback cell is [null]
    changes the registry at the code only: the room keeps its creator and
    its listeners and gains the new closure (last in iteration order).  The
    joiner becomes paired with the code, its log is unchanged, and no other
    session is touched. *)
Theorem joinChat_subscribes (w : World) (b : nat) (sb : Session)
    (code : string) (room : Room) :
  sessions w !! b = Some sb →
  messageCallback sb = VNull →
  rooms w !! code = Some room →
  creator room ≠ userId sb →
  ∃ w',
    joinChat b code (Returns ()) w = Some (Returns true, w') ∧
    rooms w' =
      <[code := mkRoom (creator room)
                       (Set_add (mkCallback (objects w) b) (listeners room))]>
        (rooms w) ∧
    (∀ c, c ∈ listeners room →
          c ∈ Set_add (mkCallback (objects w) b) (listeners room)) ∧
    sessions w' !! b =
      Some (mkSession (messages sb) (isConnected sb) true (Some code)
                      (VPromise (S (objects w))) (userId sb)) ∧
    (∀ j, j ≠ b → sessions w' !! j = sessions w !! j).
Proof.
  intros Hs Hcb Hr Hc.
  destruct (joinChat_sessions _ _ _ _ _ Hs Hr Hc) as (w' & Hj & Hb & Ho).
  exists w'. split; [exact Hj|]. split; [|split; [|split]].
  - clear Hb Ho.
    rewrite (joinChat_unfold _ _ _ _ _ Hs Hr Hc) in Hj. injection Hj as <-.
    rewrite rerender_falsy by (rewrite Hcb; apply andb_false_r).
    unfold setIsPaired. rewrite rooms_setState. unfold with_rooms; cbn.
    by rewrite setMessageCallback_rooms.
  - intros c Hin. by apply Set_add_keeps.
  - rewrite Hb, Hcb. unfold updater_message; cbn. by rewrite app_nil_r.
  - exact Ho.
Qed.

(** ** [sendMessage] *)

(** X5.  Fan-out is exact.  A send by a paired session gives every other
    provider one [peer] entry, with the content and type sent and
    [encrypted = true], per listener of the sender's room that belongs to
    that provider and is not the value in the sender's callback cell; a
    provider with no such listener, or any provider when the room is
    absent, receives nothing. *)
Theorem sendMessage_fan_out (w : World) (sid j : nat) (s : Session)
    (code content : string) (type : MessageType) :
  sessions w !! sid = Some s →
  isPaired s = true →
  pairingCode s = Some code →
  code ≠ "" →
  j ≠ sid →
  ∃ w' rest,
    sendMessage sid content type w = Some (Returns (), w') ∧
    sessions w' !! j = append_log rest <$> sessions w !! j ∧
    Forall (is_delivery (Some content) (Some type)) rest ∧
    length rest =
      length (reaching (messageCallback s) j
                       (default [] (listeners <$> rooms w !! code))).
Proof. apply sendMessage_delivery. Qed.

Lemma sendMessage_logs (w w' : World) (sid : nat) (content : string)
    (type : MessageType) (r : Outcome ()) :
  sendMessage sid content type w = Some (r, w') →
  rooms w' = rooms w ∧
  ∀ j, ∃ rest, sessions w' !! j = append_log rest <$> sessions w !! j.
Proof.
  unfold sendMessage. destruct (sessions w !! sid) as [s|] eqn:Hs; cbn; [|done].
  destruct (negb (isPaired s) || negb (truthy_code (pairingCode s))).
  { intros [= _ <-]. split; [done|]. intros j. exists []. by rewrite append_log_nil. }
  intros [= _ <-].
  set (m := Message.mk _ _ _ _ _ _).
  set (w1 := setMessages sid _ _).
  assert (rooms w1 = rooms w) as Hr1 by done.
  assert (∀ j, ∃ rest, sessions w1 !! j = append_log rest <$> sessions w !! j) as H1.
  { intros j. subst w1. unfold setMessages. rewrite lookup_setState. cbn.
    case_decide; [exists [m]; done|]. exists []. by rewrite append_log_nil. }
  destruct (pairingCode s ≫= _) as [room|].
  - split; [by rewrite broadcast_rooms|]. intros j.
    destruct (H1 j) as [r1 Hj1].
    destruct (broadcast_sessions (messageCallback s) (Some content) (Some type)
                (listeners room) w1 j) as (r2 & Hj2 & _ & _).
    exists (r1 ++ r2). by rewrite Hj2, Hj1, append_log_app.
  - by split.
Qed.

(** X6.  Whatever its outcome, [sendMessage] never changes the registry and
    only ever appends to logs: each provider's cells after the call are its
    cells before with some entries added at the end of its log. *)
Theorem sendMessage_append_only (w w' : World) (sid : nat) (content : string)
    (type : MessageType) (r : Outcome ()) :
  sendMessage sid content type w = Some (r, w') →
  rooms w' = rooms w ∧
  ∀ j, ∃ rest, sessions w' !! j = append_log rest <$> sessions w !! j.
Proof. apply sendMessage_logs. Qed.

(** ** The subscription cleanup *)

Lemma Set_delete_idempotent v l : Set_delete v (Set_delete v l) = Set_delete v l.
Proof.
  unfold Set_delete. induction l as [|c l IH]; [reflexivity|].
  destruct (decide (VFun c ≠ v)) as [H|H].
  - rewrite filter_cons_True by done. rewrite filter_cons_True by done.
    by rewrite IH.
  - by rewrite filter_cons_False by done.
Qed.

Lemma unsubscribe_twice code cb w :
  unsubscribe code cb (unsubscribe code cb w) = unsubscribe code cb w.
Proof.
  unfold unsubscribe. destruct (truthy_code code && truthy cb); [|done].
  destruct code as [c|]; [|done].
  destruct (rooms w !! c) as [room|] eqn:Hr.
  - destruct (decide (length (Set_delete cb (listeners room)) = 0)) as [H0|H0].
    + unfold with_rooms; cbn. by rewrite lookup_delete_eq.
    + unfold with_rooms; cbn [rooms]. rewrite lookup_insert_eq; cbn [listeners creator].
      rewrite Set_delete_idempotent, decide_False by done. cbn.
      by rewrite insert_insert_eq.
  - by rewrite Hr.
Qed.

(** X7.  The cleanup of lines 45-53 (and 154-162) is idempotent: running it
    a second time with the same code and callback value changes nothing
    more, whether the first run emptied and deleted the room, removed one
    listener, or found nothing to do. *)
Theorem unsubscribe_idempotent (code : option string) (cb : Value) (w : World) :
  unsubscribe code cb (unsubscribe code cb w) = unsubscribe code cb w.
Proof. apply unsubscribe_twice. Qed.

Lemma unsubscribe_setState code cb sid f w :
  unsubscribe code cb (setState sid f w) = setState sid f (unsubscribe code cb w).
Proof.
  unfold unsubscribe. destruct (truthy_code code && truthy cb); [|done].
  destruct code as [c|]; [|done]. rewrite rooms_setState.
  destruct (rooms w !! c) as [room|]; [|done].
  by destruct (decide (length (Set_delete cb (listeners room)) = 0)).
Qed.

Lemma leaveChat_body (w : World) (sid : nat) (s : Session) :
  sessions w !! sid = Some s →
  leaveChat sid w =
    Some (Returns (),
          storeMessageCallback sid VNull
            (setPairingCode sid None
               (setIsPaired sid false
                  (setMessages sid (λ _, [])
                     (unsubscribe (pairingCode s) (messageCallback s) w))))).
Proof.
  intros Hs. rewrite (leaveChat_unfold _ _ _ Hs). do 2 f_equal.
  unfold rerender. match goal with |- context [sessions ?x !! sid] =>
    destruct (sessions x !! sid) end; [|done].
  case_decide; [done|]. unfold_setters.
  by rewrite !unsubscribe_setState, unsubscribe_twice.
Qed.

(** X8.  [leaveChat] already did what the effect cleanup would do: the
    cleanup React runs at the re-render after [leaveChat] (the dependencies
    of the effect at lines 43-55 having changed) never changes anything.
    The world after [leaveChat] is the one its own body produces. *)
Theorem leaveChat_cleanup_runs_once (w : World) (sid : nat) (s : Session) :
  sessions w !! sid = Some s →
  leaveChat sid w =
    Some (Returns (),
          storeMessageCallback sid VNull
            (setPairingCode sid None
               (setIsPaired sid false
                  (setMessages sid (λ _, [])
                     (unsubscribe (pairingCode s) (messageCallback s) w))))).
Proof. apply leaveChat_body. Qed.

(** X9.  Unmounting a provider and calling [leaveChat] on it leave the same
    registry: the effect cleanup at lines 44-54 and the body of [leaveChat]
    at lines 154-162 do the same thing to the rooms.  Unmounting removes
    the provider and touches no other session. *)
Theorem unmount_registry_as_leaveChat (w : World) (sid : nat) (s : Session) :
  sessions w !! sid = Some s →
  ∃ w1 w2,
    unmount sid w = Some w1 ∧
    leaveChat sid w = Some (Returns (), w2) ∧
    rooms w1 = rooms w2 ∧
    sessions w1 !! sid = None ∧
    ∀ j, j ≠ sid → sessions w1 !! j = sessions w !! j.
Proof.
  intros Hs. eexists _, _. split; [|split].
  - unfold unmount. rewrite Hs. reflexivity.
  - apply (leaveChat_body _ _ _ Hs).
  - cbn. split; [|split].
    + unfold_setters. by rewrite !rooms_setState.
    + apply lookup_delete_eq.
    + intros j Hj. rewrite lookup_delete_ne by done.
      by rewrite unsubscribe_sessions.
Qed.

(** X10.  After [leaveChat] the session is unpaired for [sendMessage]: every
    send fails with [NotPairedError] and changes nothing, until the session
    generates or joins a code again. *)
Theorem leaveChat_then_sendMessage_fails (w : World) (sid : nat) (s : Session) :
  sessions w !! sid = Some s →
  ∃ w1,
    leaveChat sid w = Some (Returns (), w1) ∧
    ∀ content type,
      sendMessage sid content type w1 = Some (Throws NotPairedError, w1).
Proof.
  intros Hs. pose proof (leaveChat_unfold _ _ _ Hs) as Hl.
  eexists. split; [exact Hl|]. intros content type.
  pose proof (leaveChat_session _ _ _ _ _ Hs Hl) as Hs1.
  unfold sendMessage. rewrite Hs1. reflexivity.
Qed.

(** ** Invariants of every execution *)

Lemma leaveChat_other sid w s w1 r j :
  sessions w !! sid = Some s →
  leaveChat sid w = Some (r, w1) →
  j ≠ sid →
  sessions w1 !! j = sessions w !! j.
Proof.
  intros Hs. rewrite (leaveChat_unfold _ _ _ Hs). intros [= _ <-] Hj.
  rewrite rerender_sessions. unfold_setters.
  rewrite !lookup_setState, !decide_False by congruence.
  by rewrite unsubscribe_sessions.
Qed.

Lemma joinChat_cases sid code kp w r w' :
  joinChat sid code kp w = Some (r, w') →
  (r = Returns false ∧ w' = w) ∨
  (r = Returns true ∧ kp = Returns () ∧
   ∃ s room, sessions w !! sid = Some s ∧ rooms w !! code = Some room ∧
             creator room ≠ userId s).
Proof.
  unfold joinChat. destruct (sessions w !! sid) as [s|] eqn:Hs; cbn; [|done].
  destruct (rooms w !! code) as [room|] eqn:Hr; [|intros [= <- <-]; by left].
  case_decide; [intros [= <- <-]; by left|].
  destruct kp as [[]|e]; [|intros [= <- <-]; by left].
  intros [= <- _]. right. eauto 10.
Qed.

Lemma generateCode_throws sid kp pc w e w' :
  generateCode sid kp pc w = Some (Throws e, w') → w' = w.
Proof.
  unfold generateCode. destruct (sessions w !! sid) as [s|]; cbn; [|done].
  destruct kp; [|by intros [= _ <-]]. destruct pc; [done|by intros [= _ <-]].
Qed.

(** X11.  In every reachable world no provider's [messageCallback] cell
    holds a function: [setMessageCallback] is only ever called with the
    async closure (line 111), which React runs as an updater and whose
    promise it stores, or with [null] (line 166).  So the value compared at
    lines 48, 142 and 157 is never an element of a listener set. *)
Theorem messageCallback_never_holds_function (w : World) (sid : nat) (s : Session) :
  reachable w →
  sessions w !! sid = Some s →
  is_function (messageCallback s) = false.
Proof. intros Hr Hs. by eapply reachable_no_function_cell. Qed.

(** X12.  In every reachable world [leaveChat] removes no listener: a room
    that has at least one listener is, after any session's [leaveChat],
    still registered under the same code with the same creator and the
    same listeners. *)
Theorem leaveChat_never_unsubscribes (w w1 : World) (sid : nat) (s : Session)
    (r : Outcome ()) (c : string) (room : Room) :
  reachable w →
  sessions w !! sid = Some s →
  rooms w !! c = Some room →
  listeners room ≠ [] →
  leaveChat sid w = Some (r, w1) →
  rooms w1 !! c = Some room.
Proof.
  intros Hreach Hs Hr Hne Hl.
  eapply leaveChat_keeps_listeners; [exact Hs| |exact Hr|exact Hne|exact Hl].
  by eapply reachable_no_function_cell.
Qed.

Lemma pc_sessions w w' :
  sessions w' = sessions w → paired_coherent w → paired_coherent w'.
Proof. unfold paired_coherent. by intros ->. Qed.

Lemma pc_generateCode sid kp pc w r w' :
  generateCode sid kp pc w = Some (r, w') →
  paired_coherent w → paired_coherent w'.
Proof.
  intros Hg Hw. destruct r as [code|e].
  - intros j s'. destruct (decide (j = sid)) as [->|Hj].
    + destruct (generateCode_post _ _ _ _ _ _ Hg) as (s & _ & _ & Hs1).
      rewrite Hs1. intros [= <-]. cbn. split; [eauto|done].
    + rewrite (generateCode_other _ _ _ _ _ _ j Hg Hj). apply Hw.
  - by rewrite (generateCode_throws _ _ _ _ _ _ Hg).
Qed.

Lemma pc_joinChat sid code kp w r w' :
  joinChat sid code kp w = Some (r, w') →
  paired_coherent w → paired_coherent w'.
Proof.
  intros Hj Hw.
  destruct (joinChat_cases _ _ _ _ _ _ Hj)
    as [[_ ->]|(-> & -> & s & room & Hs & Hr & Hc)]; [done|].
  destruct (joinChat_sessions _ _ _ _ _ Hs Hr Hc) as (w'' & Hj' & Hb & Ho).
  rewrite Hj in Hj'. injection Hj' as <-.
  intros j s'. destruct (decide (j = sid)) as [->|Hne].
  - rewrite Hb. intros [= <-]. cbn. split; [eauto|done].
  - rewrite (Ho j Hne). apply Hw.
Qed.

Lemma pc_sendMessage sid content type w r w' :
  sendMessage sid content type w = Some (r, w') →
  paired_coherent w → paired_coherent w'.
Proof.
  intros Hsend Hw j s'.
  destruct (sendMessage_logs _ _ _ _ _ _ Hsend) as [_ Hlogs].
  destruct (Hlogs j) as [rest ->].
  destruct (sessions w !! j) as [s|] eqn:Hs; cbn; [|done].
  intros [= <-]. cbn. by apply (Hw j).
Qed.

Lemma pc_leaveChat sid w r w' :
  leaveChat sid w = Some (r, w') →
  paired_coherent w → paired_coherent w'.
Proof.
  intros Hl Hw. destruct (sessions w !! sid) as [s|] eqn:Hs.
  - intros j s'. destruct (decide (j = sid)) as [->|Hj].
    + rewrite (leaveChat_session _ _ _ _ _ Hs Hl). intros [= <-]. cbn.
      split; [done|]. by intros [? [=]].
    + rewrite (leaveChat_other _ _ _ _ _ j Hs Hl Hj). apply Hw.
  - unfold leaveChat in Hl. by rewrite Hs in Hl.
Qed.

Lemma pc_step w w' : step w w' → paired_coherent w → paired_coherent w'.
Proof.
  intros Hstep Hw. inversion Hstep; subst.
  - intros j s. unfold ChatProvider; cbn. rewrite lookup_insert.
    case_decide; [|apply Hw]. intros [= <-]. cbn. split; [done|].
    by intros [? [=]].
  - by eapply pc_sessions.
  - by eapply pc_generateCode.
  - by eapply pc_joinChat.
  - by eapply pc_sendMessage.
  - by eapply pc_leaveChat.
Qed.

Lemma reachable_ind_r (P : World → Prop) :
  P initial →
  (∀ w w', reachable w → P w → step w w' → P w') →
  ∀ w, reachable w → P w.
Proof.
  intros H0 Hstep w Hr. unfold reachable in *.
  apply rtc_nsteps in Hr as [n Hr]. revert w Hr.
  induction n as [|n IH]; intros w Hr.
  - by inversion Hr; subst.
  - apply nsteps_inv_r in Hr as (w0 & Hr & Hs).
    eapply Hstep; [|by apply IH|exact Hs]. eapply rtc_nsteps; eauto.
Qed.

(** X13.  [isPaired] and [pairingCode] always agree: in every reachable
    world a provider has [isPaired = true] exactly when it holds a pairing
    code.  [generateCode] and [joinChat] set both on success and neither
    on failure, [leaveChat] clears both, and nothing else writes them. *)
Theorem isPaired_iff_pairingCode (w : World) (sid : nat) (s : Session) :
  reachable w →
  sessions w !! sid = Some s →
  (isPaired s = true ↔ is_Some (pairingCode s)).
Proof.
  intros Hr. revert sid s. change (paired_coherent w).
  induction Hr as [|w0 w1 _ IH Hstep] using reachable_ind_r.
  - intros j s. unfold initial; cbn. by rewrite lookup_empty.
  - by eapply pc_step.
Qed.

Lemma unsubscribe_uuids code cb w : uuids (unsubscribe code cb w) = uuids w.
Proof. unfold unsubscribe. repeat case_match; reflexivity. Qed.

Lemma rerender_uuids sid prev w : uuids (rerender sid prev w) = uuids w.
Proof.
  unfold rerender. repeat case_match; try reflexivity. apply unsubscribe_uuids.
Qed.

Lemma if_sessions w w' :
  sessions w' = sessions w → uuids w ≤ uuids w' →
  ids_fresh w → ids_fresh w'.
Proof.
  intros Hs Hu Hw j s. rewrite Hs. intros Hj.
  destruct (Hw j s Hj) as [Hnd Hlt]. split; [done|].
  eapply Forall_impl; [exact Hlt|]. cbn. lia.
Qed.

Lemma if_setState sid f w :
  (∀ s, messages (f s) = messages s ∨ messages (f s) = []) →
  ids_fresh w → ids_fresh (setState sid f w).
Proof.
  intros Hf Hw j s'. rewrite lookup_setState. case_decide as E; [|apply Hw].
  destruct (sessions w !! j) as [s|] eqn:Hs; cbn; [|done].
  intros [= <-]. destruct (Hf s) as [-> | ->].
  - by apply (Hw j).
  - split; [constructor|constructor].
Qed.

(** Appending an entry whose identifier was just drawn. *)
Lemma if_append j ct ty t sd en w :
  ids_fresh w →
  ids_fresh
    (setMessages j (λ prev, prev ++ [Message.mk (uuids w) ct ty t sd en])
       (uuidv4 w).2).
Proof.
  intros Hw k s'. unfold setMessages. rewrite lookup_setState. cbn.
  case_decide as E.
  - destruct (sessions w !! k) as [s|] eqn:Hs; cbn; [|done].
    intros [= <-]. cbn. destruct (Hw k s Hs) as [Hnd Hlt]. split.
    + rewrite fmap_app. apply NoDup_app. split; [done|]. split.
      * intros x Hx Hx'. cbn in Hx'. apply list_elem_of_singleton in Hx'. subst x.
        apply list_elem_of_fmap in Hx as (m & Hm & Hin).
        rewrite Forall_forall in Hlt. specialize (Hlt m Hin). lia.
      * cbn. apply NoDup_singleton.
    + apply Forall_app. split.
      * eapply Forall_impl; [exact Hlt|]. intros x Hx. unfold setState; cbn in *. lia.
      * constructor; [unfold setState; cbn; lia|constructor].
  - intros Hk. destruct (Hw k s' Hk) as [Hnd Hlt]. split; [done|].
    eapply Forall_impl; [exact Hlt|]. intros x Hx. unfold setState; cbn in *. lia.
Qed.

Lemma if_callback c m w : ids_fresh w → ids_fresh (callback c m w).2.
Proof.
  intros Hw. unfold callback. destruct m as [|ct ty]; cbn.
  - eapply if_sessions; [| |exact Hw]; cbn; [done|lia].
  - eapply (if_sessions (setMessages (cb_owner c) _ (uuidv4 w).2));
      [reflexivity|cbn; lia|]. by apply if_append.
Qed.

Lemma if_broadcast own m ls w : ids_fresh w → ids_fresh (broadcast own m ls w).
Proof.
  revert w. induction ls as [|l ls IH]; intros w Hw; [done|].
  rewrite broadcast_cons. apply IH. case_decide; [by apply if_callback|done].
Qed.

Lemma if_setMessageCallback sid v w :
  ids_fresh w → ids_fresh (setMessageCallback sid v w).
Proof.
  intros Hw. unfold setMessageCallback. destruct v as [|f|p].
  - apply if_setState; [by left|done].
  - destruct (sessions w !! sid) as [s|]; [|done].
    pose proof (if_callback f (as_message (messageCallback s)) w Hw) as Hc.
    destruct (callback f (as_message (messageCallback s)) w) as [r wc].
    apply if_setState; [by left|done].
  - apply if_setState; [by left|done].
Qed.

Lemma if_generateCode sid kp pc w r w' :
  generateCode sid kp pc w = Some (r, w') → ids_fresh w → ids_fresh w'.
Proof.
  unfold generateCode. destruct (sessions w !! sid) as [s|]; cbn; [|done].
  destruct kp; [|by intros [= _ <-]]. destruct pc; [|by intros [= _ <-]].
  intros [= _ <-] Hw.
  eapply if_sessions; [apply rerender_sessions|by rewrite rerender_uuids|].
  apply if_setState; [by left|]. apply if_setState; [by left|].
  eapply if_sessions; [| |exact Hw]; done.
Qed.

Lemma if_joinChat sid code kp w r w' :
  joinChat sid code kp w = Some (r, w') → ids_fresh w → ids_fresh w'.
Proof.
  unfold joinChat. destruct (sessions w !! sid) as [s|]; cbn; [|done].
  destruct (rooms w !! code) as [room|]; [|by intros [= _ <-]].
  case_decide; [by intros [= _ <-]|]. destruct kp; [|by intros [= _ <-]].
  intros [= _ <-] Hw.
  eapply if_sessions; [apply rerender_sessions|by rewrite rerender_uuids|].
  apply if_setState; [by left|].
  eapply if_sessions; [apply sessions_with_rooms|done|].
  apply if_setMessageCallback.
  eapply (if_sessions (setPairingCode sid (Some code) w)); [reflexivity|done|].
  apply if_setState; [by left|done].
Qed.

Lemma if_sendMessage sid content type w r w' :
  sendMessage sid content type w = Some (r, w') → ids_fresh w → ids_fresh w'.
Proof.
  unfold sendMessage. destruct (sessions w !! sid) as [s|]; cbn; [|done].
  destruct (negb (isPaired s) || negb (truthy_code (pairingCode s)));
    [by intros [= _ <-]|].
  intros [= _ <-] Hw.
  pose proof (if_append sid (Some content) (Some type) (Date_now w) self true
                w Hw) as Hw1.
  destruct (pairingCode s ≫= _); [by apply if_broadcast|done].
Qed.

Lemma if_leaveChat sid w r w' :
  leaveChat sid w = Some (r, w') → ids_fresh w → ids_fresh w'.
Proof.
  unfold leaveChat. destruct (sessions w !! sid) as [s|]; cbn; [|done].
  intros [= _ <-] Hw.
  eapply if_sessions; [apply rerender_sessions|by rewrite rerender_uuids|].
  apply if_setState; [by left|]. apply if_setState; [by left|].
  apply if_setState; [by left|]. apply if_setState; [by right|].
  eapply if_sessions; [apply unsubscribe_sessions|by rewrite unsubscribe_uuids|done].
Qed.

Lemma if_step w w' : step w w' → ids_fresh w → ids_fresh w'.
Proof.
  intros Hstep Hw. inversion Hstep; subst.
  - intros j s. unfold ChatProvider; cbn. rewrite lookup_insert.
    case_decide.
    + intros [= <-]. cbn. split; constructor.
    + intros Hj. destruct (Hw j s Hj) as [Hnd Hlt]. split; [done|].
      eapply Forall_impl; [exact Hlt|]. cbn. lia.
  - eapply if_sessions; [| |exact Hw]; done.
  - by eapply if_generateCode.
  - by eapply if_joinChat.
  - by eapply if_sendMessage.
  - by eapply if_leaveChat.
Qed.

(** X14.  With [uuidv4()] never repeating a value, the identifiers within
    any provider's log are pairwise distinct in every reachable world:
    each entry appended at lines 105 and 136 gets the result of its own
    [uuidv4()] call, and a log is otherwise only ever emptied. *)
Theorem message_ids_distinct (w : World) (sid : nat) (s : Session) :
  reachable w →
  sessions w !! sid = Some s →
  NoDup (Message.id <$> messages s).
Proof.
  intros Hr Hs. cut (ids_fresh w); [intros Hw; by destruct (Hw sid s Hs)|].
  clear sid s Hs.
  induction Hr as [|w0 w1 _ IH Hstep] using reachable_ind_r.
  - intros j s. unfold initial; cbn. by rewrite lookup_empty.
  - by eapply if_step.
Qed.

(** ** A host, a joiner, and what their sends do *)

(** What a send does to the sender's own log, entry by entry. *)
Lemma sendMessage_own_log (w : World) (sid : nat) (s : Session)
    (code content : string) (type : MessageType) :
  sessions w !! sid = Some s →
  isPaired s = true →
  pairingCode s = Some code →
  code ≠ "" →
  ∃ w' rest,
    sendMessage sid content type w = Some (Returns (), w') ∧
    sessions w' !! sid =
      Some (append_log (Message.mk (uuids w) (Some content) (Some type)
                                   (Date_now w) self true :: rest) s) ∧
    Forall (is_delivery (Some content) (Some type)) rest ∧
    length rest =
      length (reaching (messageCallback s) sid
                       (default [] (listeners <$> rooms w !! code))).
Proof.
  intros Hs Hp Hc Hne.
  assert (truthy_code (pairingCode s) = true) as Ht.
  { rewrite Hc; simpl. apply negb_true_iff. by apply String.eqb_neq. }
  rewrite (sendMessage_unfold _ content type _ _ Hs Hp Ht). rewrite Hc; simpl.
  set (m := Message.mk _ _ _ _ _ _). set (w1 := setMessages sid _ _).
  assert (sessions w1 !! sid = Some (append_log [m] s)) as Hs1.
  { subst w1. unfold setMessages. rewrite lookup_setState, decide_True by done.
    cbn. by rewrite Hs. }
  destruct (rooms w !! code) as [room|] eqn:Hr; simpl.
  - destruct (broadcast_sessions (messageCallback s) (Some content) (Some type)
                (listeners room) w1 sid) as (rest & Hb & Hall & Hlen).
    eexists _, rest. split; [reflexivity|]. split; [|by split].
    rewrite Hb, Hs1. simpl. unfold append_log; simpl. by rewrite <- app_assoc.
  - exists w1, []. split; [reflexivity|]. split; [exact Hs1|]. by split.
Qed.

(** X15.  Host to joiner.  Session [a] generates a code and session [b],
    of another identity, joins it.  Then every message the host sends
    arrives in the joiner's log as exactly one new last entry, with
    [sender = peer], [encrypted = true] and the content and type sent. *)
Theorem host_send_reaches_joiner (w w1 w2 : World) (a b : nat) (sa sb : Session)
    (kp : Outcome ()) (pc : Outcome string) (code content : string)
    (type : MessageType) :
  sessions w !! a = Some sa →
  sessions w !! b = Some sb →
  userId sa ≠ userId sb →
  is_function (messageCallback sa) = false →
  is_function (messageCallback sb) = false →
  code ≠ "" →
  generateCode a kp pc w = Some (Returns code, w1) →
  joinChat b code (Returns ()) w1 = Some (Returns true, w2) →
  ∃ w3 x,
    sendMessage a content type w2 = Some (Returns (), w3) ∧
    is_delivery (Some content) (Some type) x ∧
    sessions w3 !! b = append_log [x] <$> sessions w2 !! b.
Proof. intros. by eapply host_message_reaches_joiner. Qed.

(** X16.  The joiner hears itself.  In the same situation every message the
    joiner sends is appended to its own log twice: first as the [self]
    entry of line 136, then, through its own listener, as a [peer] entry
    with the same content and type.  The test of line 142 does not exclude
    the joiner's listener, because the joiner's callback cell holds a
    promise. *)
Theorem joiner_send_echoes (w w1 w2 : World) (a b : nat) (sa sb : Session)
    (kp : Outcome ()) (pc : Outcome string) (code content : string)
    (type : MessageType) :
  sessions w !! a = Some sa →
  sessions w !! b = Some sb →
  userId sa ≠ userId sb →
  is_function (messageCallback sa) = false →
  is_function (messageCallback sb) = false →
  code ≠ "" →
  generateCode a kp pc w = Some (Returns code, w1) →
  joinChat b code (Returns ()) w1 = Some (Returns true, w2) →
  ∃ w3 x,
    sendMessage b content type w2 = Some (Returns (), w3) ∧
    is_delivery (Some content) (Some type) x ∧
    sessions w3 !! b =
      append_log [Message.mk (uuids w2) (Some content) (Some type)
                             (Date_now w2) self true; x]
        <$> sessions w2 !! b.
Proof.
  intros Ha Hb Hid Hfa Hfb Hcode Hgen Hjoin.
  destruct (paired_state w w1 w2 a b sa sb kp pc code Ha Hb Hid Hfa Hfb Hcode
              Hgen Hjoin) as (Hr2 & _ & log & Hb2).
  destruct (sendMessage_own_log w2 b _ code content type Hb2 eq_refl eq_refl Hcode)
    as (w3 & rest & Hsend & Hlog & Hall & Hlen).
  rewrite Hr2 in Hlen. cbn in Hlen. rewrite decide_True in Hlen by done.
  destruct rest as [|x [|y rest]]; try discriminate.
  exists w3, x. split; [exact Hsend|]. split.
  - by apply Forall_cons_1 in Hall as [? _].
  - by rewrite Hlog, Hb2.
Qed.

(** X17.  Leaving does not stop delivery.  In the same situation, after the
    joiner has called [leaveChat] (its log emptied, unpaired, no code), a
    message the host sends is still appended to the joiner's log as a
    [peer] entry: the joiner's listener was never removed from the room. *)
Theorem host_send_reaches_joiner_after_leave (w w1 w2 w3 : World) (a b : nat)
    (sa sb : Session) (kp : Outcome ()) (pc : Outcome string)
    (code content : string) (type : MessageType) :
  sessions w !! a = Some sa →
  sessions w !! b = Some sb →
  userId sa ≠ userId sb →
  is_function (messageCallback sa) = false →
  is_function (messageCallback sb) = false →
  code ≠ "" →
  generateCode a kp pc w = Some (Returns code, w1) →
  joinChat b code (Returns ()) w1 = Some (Returns true, w2) →
  leaveChat b w2 = Some (Returns (), w3) →
  ∃ w4 x,
    sendMessage a content type w3 = Some (Returns (), w4) ∧
    is_delivery (Some content) (Some type) x ∧
    sessions w4 !! b =
      Some (mkSession [x] (isConnected sb) false None VNull (userId sb)).
Proof.
  intros Ha Hb Hid Hfa Hfb Hcode Hgen Hjoin Hleave.
  pose proof (paired_distinct w a b sa sb Ha Hb Hid) as Hab.
  destruct (paired_state w w1 w2 a b sa sb kp pc code Ha Hb Hid Hfa Hfb Hcode
              Hgen Hjoin) as (Hr2 & Ha2 & log & Hb2).
  assert (rooms w3 !! code = Some (mkRoom (userId sa) [mkCallback (objects w1) b]))
    as Hr3 by (by eapply leaveChat_keeps_listeners).
  assert (sessions w3 !! a = sessions w2 !! a) as Ha3
    by (by eapply leaveChat_other).
  rewrite Ha2 in Ha3.
  pose proof (leaveChat_session _ _ _ _ _ Hb2 Hleave) as Hb3. cbn in Hb3.
  destruct (sendMessage_delivery w3 a b _ code content type Ha3 eq_refl eq_refl
              Hcode) as (w4 & rest & Hsend & Hlog & Hall & Hlen); [congruence|].
  rewrite Hr3 in Hlen. cbn in Hlen. rewrite decide_True in Hlen.
  2:{ split; [|done]. intros Heq. rewrite <- Heq in Hfa. discriminate. }
  destruct rest as [|x [|y rest]]; try discriminate.
  exists w4, x. split; [exact Hsend|]. split.
  - by apply Forall_cons_1 in Hall as [? _].
  - by rewrite Hlog, Hb3.
Qed.

(** ** The further properties at the example session *)

Lemma ex_joined_reachable : reachable ex_joined.
Proof.
  unfold reachable.
  eapply rtc_l; [apply (step_mount 0 initial); reflexivity|].
  eapply rtc_l; [apply (step_mount 1); vm_compute; reflexivity|].
  eapply rtc_l; [apply (step_mount 2); vm_compute; reflexivity|].
  eapply rtc_l; [apply (step_elapse 1000); lia|].
  eapply rtc_l; [apply (step_generateCode 0 (Returns ()) (Returns the_code) _
                          (Returns the_code) ex_hosted); vm_compute; reflexivity|].
  eapply rtc_l; [apply (step_joinChat 1 the_code (Returns ()) _
                          (Returns true) ex_joined); vm_compute; reflexivity|].
  apply rtc_refl.
Qed.

Lemma ex_joiner_sent_reachable : reachable ex_joiner_sent.
Proof.
  eapply rtc_r; [apply ex_joined_reachable|].
  apply (step_sendMessage 1 "hi" text _ (Returns ())). vm_compute; reflexivity.
Qed.

Lemma generateCode_rethrows_witness :
  sessions ex_mounted !! 0 = Some (idle 0) ∧
  generateCode 0 (Returns ()) (Throws (CryptoError "no entropy")) ex_mounted =
    Some (Throws (CryptoError "no entropy"), ex_mounted).
Proof.
  split; [vm_compute; reflexivity|].
  apply (generateCode_rethrows ex_mounted 0 (idle 0)).
  - vm_compute; reflexivity.
  - right. split; reflexivity.
Defined.

Lemma generateCode_registers_room_witness :
  sessions ex_joined !! 2 = Some (idle 2) ∧
  rooms ex_joined !! the_code = Some (mkRoom 0 [mkCallback 0 1]) ∧
  ∃ w1,
    generateCode 2 (Returns ()) (Returns the_code) ex_joined =
      Some (Returns the_code, w1) ∧
    rooms w1 !! the_code = Some (mkRoom (userId (idle 2)) []) ∧
    sessions w1 !! 2 =
      Some (mkSession (messages (idle 2)) (isConnected (idle 2)) true
                      (Some the_code) (messageCallback (idle 2))
                      (userId (idle 2))) ∧
    (∀ j, j ≠ 2 → sessions w1 !! j = sessions ex_joined !! j) ∧
    (messageCallback (idle 2) = VNull →
     rooms w1 = <[the_code := mkRoom (userId (idle 2)) []]> (rooms ex_joined)).
Proof.
  split; [vm_compute; reflexivity|]. split; [vm_compute; reflexivity|].
  apply (generateCode_registers_room ex_joined 2 (idle 2) the_code).
  vm_compute; reflexivity.
Defined.

Lemma joinChat_result_witness :
  sessions ex_hosted !! 1 = Some (idle 1) ∧
  rooms ex_hosted !! "000000" = None ∧
  ∃ b w',
    joinChat 1 "000000" (Returns ()) ex_hosted = Some (Returns b, w') ∧
    (b = true ↔
       (∃ room, rooms ex_hosted !! "000000" = Some room ∧
                creator room ≠ userId (idle 1)) ∧
       Returns () = Returns ()) ∧
    (b = false → w' = ex_hosted).
Proof.
  split; [vm_compute; reflexivity|]. split; [vm_compute; reflexivity|].
  apply (joinChat_result ex_hosted 1 (idle 1) "000000" (Returns ())).
  vm_compute; reflexivity.
Defined.

Lemma joinChat_subscribes_witness :
  sessions ex_hosted !! 1 = Some (idle 1) ∧
  rooms ex_hosted !! the_code = Some (mkRoom 0 []) ∧
  ∃ w',
    joinChat 1 the_code (Returns ()) ex_hosted = Some (Returns true, w') ∧
    rooms w' =
      <[the_code := mkRoom (creator (mkRoom 0 []))
                           (Set_add (mkCallback (objects ex_hosted) 1)
                                    (listeners (mkRoom 0 [])))]>
        (rooms ex_hosted) ∧
    (∀ c, c ∈ listeners (mkRoom 0 []) →
          c ∈ Set_add (mkCallback (objects ex_hosted) 1) (listeners (mkRoom 0 []))) ∧
    sessions w' !! 1 =
      Some (mkSession (messages (idle 1)) (isConnected (idle 1)) true
                      (Some the_code) (VPromise (S (objects ex_hosted)))
                      (userId (idle 1))) ∧
    (∀ j, j ≠ 1 → sessions w' !! j = sessions ex_hosted !! j).
Proof.
  split; [vm_compute; reflexivity|]. split; [vm_compute; reflexivity|].
  apply (joinChat_subscribes ex_hosted 1 (idle 1) the_code (mkRoom 0 [])).
  - vm_compute; reflexivity.
  - reflexivity.
  - vm_compute; reflexivity.
  - simpl. lia.
Defined.

Lemma sendMessage_fan_out_witness :
  sessions ex_joined !! 0 = Some ex_host ∧
  ∃ w' rest,
    sendMessage 0 "hello" text ex_joined = Some (Returns (), w') ∧
    sessions w' !! 1 = append_log rest <$> sessions ex_joined !! 1 ∧
    Forall (is_delivery (Some "hello") (Some text)) rest ∧
    length rest =
      length (reaching (messageCallback ex_host) 1
                       (default [] (listeners <$> rooms ex_joined !! the_code))).
Proof.
  split; [vm_compute; reflexivity|].
  apply (sendMessage_fan_out ex_joined 0 1 ex_host the_code "hello" text).
  - vm_compute; reflexivity.
  - reflexivity.
  - reflexivity.
  - discriminate.
  - lia.
Defined.

Lemma sendMessage_append_only_witness :
  sendMessage 1 "hi" text ex_joined = Some (Returns (), ex_joiner_sent) ∧
  rooms ex_joiner_sent = rooms ex_joined ∧
  ∀ j, ∃ rest,
    sessions ex_joiner_sent !! j = append_log rest <$> sessions ex_joined !! j.
Proof.
  split; [vm_compute; reflexivity|].
  apply (sendMessage_append_only ex_joined ex_joiner_sent 1 "hi" text (Returns ())).
  vm_compute; reflexivity.
Defined.

Lemma leaveChat_cleanup_runs_once_witness :
  sessions ex_joined !! 1 = Some ex_joiner ∧
  leaveChat 1 ex_joined =
    Some (Returns (),
          storeMessageCallback 1 VNull
            (setPairingCode 1 None
               (setIsPaired 1 false
                  (setMessages 1 (λ _, [])
                     (unsubscribe (pairingCode ex_joiner)
                                  (messageCallback ex_joiner) ex_joined))))).
Proof.
  split; [vm_compute; reflexivity|].
  apply (leaveChat_cleanup_runs_once ex_joined 1 ex_joiner).
  vm_compute; reflexivity.
Defined.

Lemma unmount_registry_as_leaveChat_witness :
  sessions ex_joined !! 1 = Some ex_joiner ∧
  ∃ w1 w2,
    unmount 1 ex_joined = Some w1 ∧
    leaveChat 1 ex_joined = Some (Returns (), w2) ∧
    rooms w1 = rooms w2 ∧
    sessions w1 !! 1 = None ∧
    ∀ j, j ≠ 1 → sessions w1 !! j = sessions ex_joined !! j.
Proof.
  split; [vm_compute; reflexivity|].
  apply (unmount_registry_as_leaveChat ex_joined 1 ex_joiner).
  vm_compute; reflexivity.
Defined.

Lemma leaveChat_then_sendMessage_fails_witness :
  sessions ex_joined !! 1 = Some ex_joiner ∧
  ∃ w1,
    leaveChat 1 ex_joined = Some (Returns (), w1) ∧
    ∀ content type,
      sendMessage 1 content type w1 = Some (Throws NotPairedError, w1).
Proof.
  split; [vm_compute; reflexivity|].
  apply (leaveChat_then_sendMessage_fails ex_joined 1 ex_joiner).
  vm_compute; reflexivity.
Defined.

Lemma messageCallback_never_holds_function_witness :
  sessions ex_joined !! 1 = Some ex_joiner ∧
  is_function (messageCallback ex_joiner) = false.
Proof.
  split; [vm_compute; reflexivity|].
  apply (messageCallback_never_holds_function ex_joined 1 ex_joiner).
  - apply ex_joined_reachable.
  - vm_compute; reflexivity.
Defined.

Lemma leaveChat_never_unsubscribes_witness :
  sessions ex_joined !! 1 = Some ex_joiner ∧
  rooms ex_joined !! the_code = Some (mkRoom 0 [mkCallback 0 1]) ∧
  leaveChat 1 ex_joined = Some (Returns (), ex_left) ∧
  rooms ex_left !! the_code = Some (mkRoom 0 [mkCallback 0 1]).
Proof.
  split; [vm_compute; reflexivity|]. split; [vm_compute; reflexivity|].
  split; [vm_compute; reflexivity|].
  apply (leaveChat_never_unsubscribes ex_joined ex_left 1 ex_joiner (Returns ())
           the_code (mkRoom 0 [mkCallback 0 1])).
  - apply ex_joined_reachable.
  - vm_compute; reflexivity.
  - vm_compute; reflexivity.
  - discriminate.
  - vm_compute; reflexivity.
Defined.

Lemma isPaired_iff_pairingCode_witness :
  sessions ex_joined !! 1 = Some ex_joiner ∧
  (isPaired ex_joiner = true ↔ is_Some (pairingCode ex_joiner)).
Proof.
  split; [vm_compute; reflexivity|].
  apply (isPaired_iff_pairingCode ex_joined 1 ex_joiner).
  - apply ex_joined_reachable.
  - vm_compute; reflexivity.
Defined.

Lemma message_ids_distinct_witness :
  sessions ex_joiner_sent !! 1 =
    Some (append_log [Message.mk 4 (Some "hi") (Some text) 1000 self true;
                      Message.mk 5 (Some "hi") (Some text) 1000 peer true]
                     ex_joiner) ∧
  NoDup (Message.id <$>
           messages (append_log
                       [Message.mk 4 (Some "hi") (Some text) 1000 self true;
                        Message.mk 5 (Some "hi") (Some text) 1000 peer true]
                       ex_joiner)).
Proof.
  split; [vm_compute; reflexivity|].
  apply (message_ids_distinct ex_joiner_sent 1).
  - apply ex_joiner_sent_reachable.
  - vm_compute; reflexivity.
Defined.

Lemma host_send_reaches_joiner_witness :
  generateCode 0 (Returns ()) (Returns the_code) ex_mounted =
    Some (Returns the_code, ex_hosted) ∧
  joinChat 1 the_code (Returns ()) ex_hosted = Some (Returns true, ex_joined) ∧
  ∃ w3 x,
    sendMessage 0 "hello" text ex_joined = Some (Returns (), w3) ∧
    is_delivery (Some "hello") (Some text) x ∧
    sessions w3 !! 1 = append_log [x] <$> sessions ex_joined !! 1.
Proof.
  split; [vm_compute; reflexivity|]. split; [vm_compute; reflexivity|].
  apply (host_send_reaches_joiner ex_mounted ex_hosted ex_joined 0 1 (idle 0) (idle 1)
           (Returns ()) (Returns the_code) the_code "hello" text).
  - vm_compute; reflexivity.
  - vm_compute; reflexivity.
  - simpl. lia.
  - reflexivity.
  - reflexivity.
  - discriminate.
  - vm_compute; reflexivity.
  - vm_compute; reflexivity.
Defined.

Lemma joiner_send_echoes_witness :
  generateCode 0 (Returns ()) (Returns the_code) ex_mounted =
    Some (Returns the_code, ex_hosted) ∧
  joinChat 1 the_code (Returns ()) ex_hosted = Some (Returns true, ex_joined) ∧
  ∃ w3 x,
    sendMessage 1 "hi" text ex_joined = Some (Returns (), w3) ∧
    is_delivery (Some "hi") (Some text) x ∧
    sessions w3 !! 1 =
      append_log [Message.mk (uuids ex_joined) (Some "hi") (Some text)
                             (Date_now ex_joined) self true; x]
        <$> sessions ex_joined !! 1.
Proof.
  split; [vm_compute; reflexivity|]. split; [vm_compute; reflexivity|].
  apply (joiner_send_echoes ex_mounted ex_hosted ex_joined 0 1 (idle 0) (idle 1)
           (Returns ()) (Returns the_code) the_code "hi" text).
  - vm_compute; reflexivity.
  - vm_compute; reflexivity.
  - simpl. lia.
  - reflexivity.
  - reflexivity.
  - discriminate.
  - vm_compute; reflexivity.
  - vm_compute; reflexivity.
Defined.

Lemma host_send_reaches_joiner_after_leave_witness :
  joinChat 1 the_code (Returns ()) ex_hosted = Some (Returns true, ex_joined) ∧
  leaveChat 1 ex_joined = Some (Returns (), ex_left) ∧
  ∃ w4 x,
    sendMessage 0 "hello" text ex_left = Some (Returns (), w4) ∧
    is_delivery (Some "hello") (Some text) x ∧
    sessions w4 !! 1 =
      Some (mkSession [x] (isConnected (idle 1)) false None VNull (userId (idle 1))).
Proof.
  split; [vm_compute; reflexivity|]. split; [vm_compute; reflexivity|].
  apply (host_send_reaches_joiner_after_leave ex_mounted ex_hosted ex_joined ex_left
           0 1 (idle 0) (idle 1) (Returns ()) (Returns the_code) the_code
           "hello" text).
  - vm_compute; reflexivity.
  - vm_compute; reflexivity.
  - simpl. lia.
  - reflexivity.
  - reflexivity.
  - discriminate.
  - vm_compute; reflexivity.
  - vm_compute; reflexivity.
  - vm_compute; reflexivity.
Defined.

(** The host's send after the joiner left, evaluated. *)
Example ex_stale_log :
  messages <$> sessions ex_stale !! 1 =
    Some [Message.mk 5 (Some "hello") (Some text) 1000 peer true] ∧
  isPaired <$> sessions ex_stale !! 1 = Some false.
Proof. split_and!; vm_compute; reflexivity. Qed.

(** ** No self-pairing, ever *)

Lemma Set_add_inv c d l : d ∈ Set_add c l → d = c ∨ d ∈ l.
Proof.
  unfold Set_add. case_decide; [by right|].
  intros [?|Hd%list_elem_of_singleton]%elem_of_app; [by right|by left].
Qed.

Lemma unsubscribe_shrinks code cb w : rooms_shrink w (unsubscribe code cb w).
Proof.
  intros k r'. unfold unsubscribe.
  destruct (truthy_code code && truthy cb); [|by eauto].
  destruct code as [c|]; [|by eauto].
  destruct (rooms w !! c) as [room|] eqn:Hr; [|by eauto].
  destruct (decide (length (Set_delete cb (listeners room)) = 0)).
  - unfold with_rooms; cbn. rewrite lookup_delete. case_decide; [done|eauto].
  - unfold with_rooms; cbn. rewrite lookup_insert. case_decide as E; [|by eauto].
    subst k. intros [= <-]. exists room. split; [done|]. split; [done|].
    cbn. unfold Set_delete. intros d Hd. by apply list_elem_of_filter in Hd as [_ ?].
Qed.

Lemma rerender_shrinks sid prev w : rooms_shrink w (rerender sid prev w).
Proof.
  unfold rerender. destruct (sessions w !! sid); [|by intros k r'; eauto].
  case_decide; [by intros k r'; eauto|]. apply unsubscribe_shrinks.
Qed.

(** Rooms only lost listeners and providers kept their identities. *)
Lemma nsp_shrink w w' :
  rooms_shrink w w' → same_identities w w' →
  no_self_pairing w → no_self_pairing w'.
Proof.
  intros Hsh Hid Hw k r' c s' Hr' Hc Hs'.
  destruct (Hsh k r' Hr') as (r & Hr & Hcr & Hls).
  destruct (Hid _ _ Hs') as (s & Hs & Hu).
  rewrite <- Hu, Hcr. by eapply Hw; [exact Hr|apply Hls|].
Qed.

Lemma si_generateCode sid kp pc w r w' :
  generateCode sid kp pc w = Some (r, w') → same_identities w w'.
Proof.
  intros Hg j s'. destruct r as [code|e].
  - destruct (decide (j = sid)) as [->|Hj].
    + destruct (generateCode_post _ _ _ _ _ _ Hg) as (s0 & Hs0 & _ & Hs1).
      rewrite Hs1. intros [= <-]. eauto.
    + rewrite (generateCode_other _ _ _ _ _ _ j Hg Hj). eauto.
  - rewrite (generateCode_throws _ _ _ _ _ _ Hg). eauto.
Qed.

Lemma si_joinChat sid code kp w r w' :
  joinChat sid code kp w = Some (r, w') → same_identities w w'.
Proof.
  intros Hj j s'.
  destruct (joinChat_cases _ _ _ _ _ _ Hj)
    as [[_ ->]|(-> & -> & s & room & Hs & Hr & Hc)]; [by eauto|].
  destruct (joinChat_sessions _ _ _ _ _ Hs Hr Hc) as (w'' & Hj' & Hb & Ho).
  rewrite Hj in Hj'. injection Hj' as <-.
  destruct (decide (j = sid)) as [->|Hne].
  - rewrite Hb. intros [= <-]. eauto.
  - rewrite (Ho j Hne). eauto.
Qed.

Lemma si_sendMessage sid content type w r w' :
  sendMessage sid content type w = Some (r, w') → same_identities w w'.
Proof.
  intros Hsend j s'.
  destruct (sendMessage_logs _ _ _ _ _ _ Hsend) as [_ Hlogs].
  destruct (Hlogs j) as [rest ->].
  destruct (sessions w !! j) as [s|]; cbn; [|done]. intros [= <-]. eauto.
Qed.

Lemma si_leaveChat sid w r w' :
  leaveChat sid w = Some (r, w') → same_identities w w'.
Proof.
  intros Hl j s'. destruct (sessions w !! sid) as [s0|] eqn:Hs0.
  - destruct (decide (j = sid)) as [->|Hj].
    + rewrite (leaveChat_session _ _ _ _ _ Hs0 Hl). intros [= <-]. eauto.
    + rewrite (leaveChat_other _ _ _ _ _ j Hs0 Hl Hj). eauto.
  - unfold leaveChat in Hl. by rewrite Hs0 in Hl.
Qed.

Lemma nsp_generateCode sid kp pc w r w' :
  generateCode sid kp pc w = Some (r, w') →
  no_self_pairing w → no_self_pairing w'.
Proof.
  intros Hg Hw. pose proof (si_generateCode _ _ _ _ _ _ Hg) as Hid.
  destruct r as [code|e]; [|by rewrite (generateCode_throws _ _ _ _ _ _ Hg)].
  destruct (generateCode_success _ _ _ _ _ _ Hg) as (s & Hs & _ & ->).
  intros k r' c s' Hr' Hc Hs'.
  destruct (rerender_shrinks _ _ _ k r' Hr') as (r0 & Hr0 & Hcr & Hls).
  destruct (Hid _ _ Hs') as (s0 & Hs0 & Hu).
  unfold_setters. rewrite !rooms_setState in Hr0.
  unfold with_rooms in Hr0; cbn [rooms] in Hr0.
  rewrite lookup_insert in Hr0. case_decide.
  - injection Hr0 as <-. by apply Hls, not_elem_of_nil in Hc.
  - rewrite <- Hu, Hcr. by eapply Hw; [exact Hr0|apply Hls|].
Qed.

Lemma nsp_joinChat sid code kp w r w' :
  joinChat sid code kp w = Some (r, w') →
  no_self_pairing w → no_self_pairing w'.
Proof.
  intros Hj Hw. pose proof (si_joinChat _ _ _ _ _ _ Hj) as Hid.
  destruct (joinChat_cases _ _ _ _ _ _ Hj)
    as [[_ ->]|(-> & -> & s & room & Hs & Hr & Hc)]; [done|].
  rewrite (joinChat_unfold _ _ _ _ _ Hs Hr Hc) in Hj. injection Hj as <-.
  intros k r' c s' Hr' Hin Hs'.
  destruct (rerender_shrinks _ _ _ k r' Hr') as (r0 & Hr0 & Hcr & Hls).
  destruct (Hid _ _ Hs') as (s0 & Hs0 & Hu).
  specialize (Hls c Hin).
  unfold setIsPaired in Hr0. rewrite rooms_setState in Hr0.
  unfold with_rooms in Hr0; cbn [rooms] in Hr0.
  rewrite lookup_insert in Hr0. case_decide as E.
  - injection Hr0 as <-. cbn [listeners creator] in *. rewrite <- Hu, Hcr.
    destruct (Set_add_inv _ _ _ Hls) as [->|Hold].
    + cbn [cb_owner] in Hs0. rewrite Hs in Hs0. injection Hs0 as <-. done.
    + by eapply Hw.
  - rewrite setMessageCallback_rooms in Hr0. cbn in Hr0.
    rewrite <- Hu, Hcr. by eapply Hw.
Qed.

Lemma nsp_sendMessage sid content type w r w' :
  sendMessage sid content type w = Some (r, w') →
  no_self_pairing w → no_self_pairing w'.
Proof.
  intros Hsend. apply nsp_shrink; [|by eapply si_sendMessage].
  destruct (sendMessage_logs _ _ _ _ _ _ Hsend) as [Hrooms _].
  intros k r' Hr'. rewrite Hrooms in Hr'. eauto.
Qed.

Lemma nsp_leaveChat sid w r w' :
  leaveChat sid w = Some (r, w') →
  no_self_pairing w → no_self_pairing w'.
Proof.
  intros Hl. apply nsp_shrink; [|by eapply si_leaveChat].
  destruct (sessions w !! sid) as [s|] eqn:Hs;
    [|unfold leaveChat in Hl; by rewrite Hs in Hl].
  rewrite (leaveChat_body _ _ _ Hs) in Hl. injection Hl as _ <-.
  intros k r'. unfold_setters. rewrite !rooms_setState.
  apply unsubscribe_shrinks.
Qed.

Lemma nsp_unmount sid w w' :
  unmount sid w = Some w' → no_self_pairing w → no_self_pairing w'.
Proof.
  unfold unmount. destruct (sessions w !! sid) as [s|]; cbn; [|done].
  intros [= <-]. apply nsp_shrink.
  - intros k r'. cbn. apply unsubscribe_shrinks.
  - intros j s'. cbn. rewrite unsubscribe_sessions, lookup_delete.
    case_decide; [done|eauto].
Qed.

Lemma nsp_lifecycle w w' :
  lifecycle w w' → no_self_pairing w → no_self_pairing w'.
Proof.
  intros Hstep Hw. inversion Hstep as [sid ? Hnone Hown| | | | | |]; subst.
  - intros k room c s Hr Hc. unfold ChatProvider; cbn.
    rewrite lookup_insert_ne; [by apply (Hw k room c)|].
    intros ->. by eapply Hown.
  - by eapply nsp_unmount.
  - exact Hw.
  - by eapply nsp_generateCode.
  - by eapply nsp_joinChat.
  - by eapply nsp_sendMessage.
  - by eapply nsp_leaveChat.
Qed.

(** X18.  No self-pairing, in any world reached by mounting, unmounting
    and the four operations: whenever a listener of a registered room
    belongs to a provider that is mounted, that provider's identity differs
    from the room's creator.  [joinChat] subscribes only after the test of
    line 86, [generateCode] starts every room with no listener, the cleanup
    only removes listeners, and no operation changes a provider's [userId]
    or a room's creator.  (A listener may outlive its provider: nothing is
    said of listeners whose provider has unmounted.) *)
Theorem listeners_are_never_the_creator (w : World) (code : string) (room : Room)
    (c : Callback) (s : Session) :
  reachable_with_unmount w →
  rooms w !! code = Some room →
  c ∈ listeners room →
  sessions w !! cb_owner c = Some s →
  userId s ≠ creator room.
Proof.
  intros Hr. revert code room c s. change (no_self_pairing w).
  unfold reachable_with_unmount in Hr.
  apply rtc_nsteps in Hr as [n Hr]. revert w Hr.
  induction n as [|n IH]; intros w Hr.
  - inversion Hr; subst. intros k room c s. unfold initial; cbn.
    by rewrite lookup_empty.
  - apply nsteps_inv_r in Hr as (w0 & Hr & Hstep).
    eapply nsp_lifecycle; [exact Hstep|by apply IH].
Qed.

Lemma owns_no_listener_empty sid w : rooms w = ∅ → owns_no_listener sid w.
Proof. intros Hr code room c. by rewrite Hr, lookup_empty. Qed.

Lemma ex_unmounted_reachable : reachable_with_unmount ex_unmounted.
Proof.
  unfold reachable_with_unmount.
  eapply rtc_l; [apply (lc_mount 0 initial);
                 [reflexivity|by apply owns_no_listener_empty]|].
  eapply rtc_l; [apply (lc_mount 1);
                 [vm_compute; reflexivity|by apply owns_no_listener_empty]|].
  eapply rtc_l; [apply (lc_mount 2);
                 [vm_compute; reflexivity|by apply owns_no_listener_empty]|].
  eapply rtc_l; [apply (lc_elapse 1000); lia|].
  eapply rtc_l; [apply (lc_generateCode 0 (Returns ()) (Returns the_code) _
                          (Returns the_code) ex_hosted); vm_compute; reflexivity|].
  eapply rtc_l; [apply (lc_joinChat 1 the_code (Returns ()) _
                          (Returns true) ex_joined); vm_compute; reflexivity|].
  eapply rtc_l; [apply (lc_joinChat 2 the_code (Returns ()) _
                          (Returns true) ex_third_joined); vm_compute; reflexivity|].
  eapply rtc_l; [apply (lc_unmount 1 _ ex_unmounted); vm_compute; reflexivity|].
  apply rtc_refl.
Qed.

(** After provider 1 unmounted its listener is still in the room, with no
    provider behind it; provider 2's listener is there too. *)
Example ex_unmounted_state :
  rooms ex_unmounted !! the_code =
    Some (mkRoom 0 [mkCallback 0 1; mkCallback 2 2]) ∧
  sessions ex_unmounted !! 1 = None ∧
  sessions ex_unmounted !! 2 =
    Some (mkSession [] true true (Some the_code) (VPromise 3) 2).
Proof. split_and!; vm_compute; reflexivity. Qed.

Lemma listeners_are_never_the_creator_witness :
  rooms ex_unmounted !! the_code =
    Some (mkRoom 0 [mkCallback 0 1; mkCallback 2 2]) ∧
  sessions ex_unmounted !! cb_owner (mkCallback 2 2) =
    Some (mkSession [] true true (Some the_code) (VPromise 3) 2) ∧
  userId (mkSession [] true true (Some the_code) (VPromise 3) 2) ≠
    creator (mkRoom 0 [mkCallback 0 1; mkCallback 2 2]).
Proof.
  split; [vm_compute; reflexivity|]. split; [vm_compute; reflexivity|].
  apply (listeners_are_never_the_creator ex_unmounted the_code
           (mkRoom 0 [mkCallback 0 1; mkCallback 2 2]) (mkCallback 2 2)).
  - apply ex_unmounted_reachable.
  - vm_compute; reflexivity.
  - right. left.
  - vm_compute; reflexivity.
Defined.
